(** * A runtime type-identity and dynamic-casting layer for Go (package oop)

    Shallow embedding of [oop.go] and of the part of [friendly.go] that
    drives the object lifecycle.  The package is written against Go's
    [reflect] and [unsafe] packages, so the development starts with a
    model of the run-time type descriptors, of values boxed in
    [interface{}], of [reflect.Value] and of the heap, and then embeds the
    package's functions over that model, one definition per Go function,
    with the Go names kept. *)

From Stdlib Require Import ZArith String List Bool Lia.
From stdpp Require Import base decidable option list gmap strings.

Local Open Scope string_scope.
Local Open Scope Z_scope.
Set Warnings "-register-all".

(** ** Run-time types *)

Module GoType.

(** [reflect.Kind]; the numeric kinds the package never distinguishes are
    kept as separate constructors because [reflect.Value.IsZero] and the
    kind switches of the package range over all of them. *)
Inductive Kind :=
| Invalid | Bool | Int | Uint | Uintptr | Float64 | String
| Array | Chan | Func | Interface | Map | Ptr | Slice | Struct
| UnsafePointer.

#[global] Instance Kind_eq_dec : EqDecision Kind.
Proof. solve_decision. Defined.

(** Kinds without structure: a predeclared type per kind. *)
Inductive basic := BBool | BInt | BUint | BUintptr | BFloat64 | BString.

Inductive ChanDir := RecvDir | SendDir | BothDir.

(** A method: its name and its signature, the latter kept as the text of
    the function type ([reflect] compares the signature's type
    descriptor by identity). *)
Definition method : Type := string * string.

(** Type descriptors.  [TNamed] is a defined type: its name, its
    underlying type, the methods declared with a value receiver and those
    declared with a pointer receiver.  Struct types list their fields
    (name and type); embedded fields and field tags are left out. *)
Inductive type :=
| TBasic (b : basic)
| TUnsafePointer
| TPtr (elem : type)
| TSlice (elem : type)
| TArray (len : nat) (elem : type)
| TMap (key elem : type)
| TChan (dir : ChanDir) (elem : type)
| TFunc (sig : string)
| TStruct (fs : fields)
| TInterface (ms : list method)
| TNamed (name : string) (under : type) (vrecv precv : list method)
with fields :=
| FNil
| FCons (name : string) (t : type) (rest : fields).

Scheme type_mut := Induction for type Sort Prop
with fields_mut := Induction for fields Sort Prop.

#[global] Instance basic_eq_dec : EqDecision basic.
Proof. solve_decision. Defined.
#[global] Instance ChanDir_eq_dec : EqDecision ChanDir.
Proof. solve_decision. Defined.

Fixpoint type_eq_dec (x y : type) {struct x} : {x = y} + {x <> y}
with fields_eq_dec (x y : fields) {struct x} : {x = y} + {x <> y}.
Proof.
  - decide equality; try apply (decide (_ = _)).
  - decide equality; apply (decide (_ = _)).
Defined.

#[global] Instance type_eqdec : EqDecision type := type_eq_dec.
#[global] Instance fields_eqdec : EqDecision fields := fields_eq_dec.

(** *** Observers of [reflect.Type] *)

Fixpoint underlying (t : type) : type :=
  match t with
  | TNamed _ u _ _ => underlying u
  | _ => t
  end.

Definition Kind_of_basic (b : basic) : Kind :=
  match b with
  | BBool => Bool | BInt => Int | BUint => Uint | BUintptr => Uintptr
  | BFloat64 => Float64 | BString => String
  end.

(** [Type.Kind] *)
Definition Kind_of (t : type) : Kind :=
  match underlying t with
  | TBasic b => Kind_of_basic b
  | TUnsafePointer => UnsafePointer
  | TPtr _ => Ptr
  | TSlice _ => Slice
  | TArray _ _ => Array
  | TMap _ _ => Map
  | TChan _ _ => Chan
  | TFunc _ => Func
  | TStruct _ => Struct
  | TInterface _ => Interface
  | TNamed _ _ _ _ => Invalid
  end.

Definition basic_name (b : basic) : string :=
  match b with
  | BBool => "bool" | BInt => "int" | BUint => "uint" | BUintptr => "uintptr"
  | BFloat64 => "float64" | BString => "string"
  end.

(** [Type.Name]: the name of a defined or predeclared type, empty for a
    type literal. *)
Definition Name (t : type) : string :=
  match t with
  | TNamed n _ _ _ => n
  | TBasic b => basic_name b
  | TUnsafePointer => "Pointer"
  | _ => ""
  end.

Definition HasName (t : type) : bool :=
  negb (String.eqb (Name t) "").

(** [Type.Elem] for the kinds that have an element type. *)
Definition Elem (t : type) : option type :=
  match underlying t with
  | TPtr e | TSlice e | TArray _ e | TMap _ e | TChan _ e => Some e
  | _ => None
  end.

Definition ChanDir_of (t : type) : option ChanDir :=
  match underlying t with
  | TChan d _ => Some d
  | _ => None
  end.

(** [reflect.PtrTo] *)
Definition PtrTo (t : type) : type := TPtr t.

(** The method set of a type (Go specification, "Method sets"): an
    interface type has its own methods; a defined type [T] has the methods
    declared with receiver [T]; the pointer type [*T] has those declared
    with receiver [T] or [*T].  A defined type whose underlying type is an
    interface has the interface's methods, and a pointer to it has none. *)
Definition methodSet (t : type) : list method :=
  match t with
  | TInterface ms => ms
  | TNamed _ u v _ =>
      match underlying u with
      | TInterface ms => ms
      | _ => v
      end
  | TPtr (TNamed _ u v p) =>
      match underlying u with
      | TInterface _ | TPtr _ => []
      | _ => v ++ p
      end
  | _ => []
  end.

(** reflect's [implements(T, V)]: [T] is an interface type and every method
    of [T] is in the method set of [V]. *)
Definition implements (T V : type) : bool :=
  match Kind_of T with
  | Interface => forallb (fun m => bool_decide (m ∈ methodSet V)) (methodSet T)
  | _ => false
  end.

(** reflect's [specialChannelAssignability(T, V)]: a bidirectional channel
    value may be assigned to a channel type with the same element type when
    one of the two types is not defined. *)
Definition specialChannelAssignability (T V : type) : bool :=
  bool_decide (ChanDir_of V = Some BothDir)
  && (negb (HasName T) || negb (HasName V))
  && bool_decide (Elem T = Elem V).

(** reflect's [haveIdenticalUnderlyingType]: descriptors of identical types
    are equal in the model, so the comparison is equality of the
    underlying types, except for interface types with methods, which
    reflect always sends through a run-time conversion. *)
Definition haveIdenticalUnderlyingType (T V : type) : bool :=
  bool_decide (T = V)
  || (bool_decide (Kind_of T = Kind_of V)
      && match underlying T with
         | TInterface ms =>
             bool_decide (ms = []) && bool_decide (methodSet V = [])
         | u => bool_decide (u = underlying V)
         end).

(** Struct fields by position. *)
Fixpoint fields_length (fs : fields) : nat :=
  match fs with
  | FNil => O
  | FCons _ _ rest => S (fields_length rest)
  end.

Fixpoint fields_nth (fs : fields) (i : nat) : option (string * type) :=
  match fs, i with
  | FNil, _ => None
  | FCons n t _, O => Some (n, t)
  | FCons _ _ rest, S j => fields_nth rest j
  end.

Definition struct_fields (t : type) : fields :=
  match underlying t with
  | TStruct fs => fs
  | _ => FNil
  end.

(** An identifier is exported when it starts with an upper-case letter. *)
Definition is_exported (name : string) : bool :=
  match name with
  | EmptyString => false
  | String.String c _ =>
      let n := Ascii.nat_of_ascii c in
      (Nat.leb 65 n && Nat.leb n 90)%nat
  end.

(** Layout on a 64-bit target: the size and alignment of a type and the
    offset of each struct field ([StructField.Offset]). *)
Definition round_up (n a : Z) : Z := ((n + a - 1) / a) * a.

Fixpoint alignof (t : type) : Z :=
  match t with
  | TBasic BBool => 1
  | TArray _ e => alignof e
  | TStruct fs => fields_align fs
  | TNamed _ u _ _ => alignof u
  | _ => 8
  end
with fields_align (fs : fields) : Z :=
  match fs with
  | FNil => 1
  | FCons _ t rest => Z.max (alignof t) (fields_align rest)
  end.

Fixpoint sizeof (t : type) : Z :=
  match t with
  | TBasic BBool => 1
  | TBasic BString => 16
  | TBasic _ => 8
  | TUnsafePointer | TPtr _ | TMap _ _ | TChan _ _ | TFunc _ => 8
  | TSlice _ => 24
  | TInterface _ => 16
  | TArray n e => Z.of_nat n * sizeof e
  | TStruct fs => round_up (fields_end fs 0) (fields_align fs)
  | TNamed _ u _ _ => sizeof u
  end
with fields_end (fs : fields) (cur : Z) : Z :=
  match fs with
  | FNil => cur
  | FCons _ t rest => fields_end rest (round_up cur (alignof t) + sizeof t)
  end.

Fixpoint field_offset (name : string) (fs : fields) (cur : Z) : option Z :=
  match fs with
  | FNil => None
  | FCons n t rest =>
      let o := round_up cur (alignof t) in
      if String.eqb n name then Some o
      else field_offset name rest (o + sizeof t)
  end.

(** The offset and the type of the field at position [i]. *)
Fixpoint field_at (fs : fields) (i : nat) (cur : Z) : option (Z * type) :=
  match fs with
  | FNil => None
  | FCons _ t rest =>
      let o := round_up cur (alignof t) in
      match i with
      | O => Some (o, t)
      | S j => field_at rest j (o + sizeof t)
      end
  end.

(** The byte offset, in an object of type [t], of the component that a
    path of field and element selectors leads to. *)
Fixpoint path_offset (t : type) (sel : list nat) : option Z :=
  match sel with
  | [] => Some 0
  | i :: sel' =>
      match underlying t with
      | TStruct fs =>
          match field_at fs i 0 with
          | Some (o, ft) => option_map (Z.add o) (path_offset ft sel')
          | None => None
          end
      | TArray n e =>
          if (i <? n)%nat then
            option_map (Z.add (Z.of_nat i * sizeof e)) (path_offset e sel')
          else None
      | _ => None
      end
  end.

(** reflect's [directlyAssignable(T, V)]: a value of type [V] can be stored
    in a variable of type [T] without a conversion. *)
Definition directlyAssignable (T V : type) : bool :=
  bool_decide (T = V)
  || (negb (HasName T && HasName V)
      && bool_decide (Kind_of T = Kind_of V)
      && ((bool_decide (Kind_of T = Chan) && specialChannelAssignability T V)
          || haveIdenticalUnderlyingType T V)).

End GoType.

(** ** Values and the heap *)

Module Mem.
Import GoType.

(** Addresses are symbolic: a block (an allocation of the heap, the
    descriptor of a type in static data, or a piece of static data such as
    the bytes of a string literal), a byte displacement produced by
    [uintptr] arithmetic, and the path of field or element selectors that
    leads from the block's object to the referent. *)
Inductive block :=
| HeapBlock (n : positive)
| TypeBlock (t : type)
| DataBlock (n : positive).

Inductive pointer :=
| Nil
| At (b : block) (off : Z) (sel : list nat).

(** [uintptr(p) - n] *)
Definition pointer_sub (p : pointer) (n : Z) : pointer :=
  match p with
  | Nil => Nil
  | At b off sel => At b (off - n) sel
  end.

Definition is_Nil (p : pointer) : bool :=
  match p with Nil => true | At _ _ _ => false end.

(** The address of field [i] of the struct at [p]. *)
Definition field_ptr (p : pointer) (i : nat) : pointer :=
  match p with
  | Nil => Nil
  | At b off sel => At b off (sel ++ [i])
  end.

(** Go values by representation.  A pointer, an [unsafe.Pointer], a map, a
    channel and a function are one address word (a function's is the
    address of its closure object, whose first word is the address of the
    code); a [uintptr] obtained from a pointer keeps the address; a float
    is its IEEE 754 bit pattern; a string and a slice are headers; an
    interface holds a dynamic type and value, or nothing. *)
Inductive value :=
| VBool (b : bool)
| VInt (n : Z)
| VUint (n : Z)
| VUintptr (p : pointer)
| VFloat64 (bits : Z)
| VString (data : pointer) (s : string)
| VPointer (p : pointer)
| VSlice (data : pointer) (len cap : Z)
| VArray (es : list value)
| VStruct (fs : list value)
| VIface (dyn : option (type * value)).

(** A value boxed in [interface{}] ([any]): [None] is the nil interface. *)
Definition any : Type := option (type * value).

(** The zero value of a type. *)
Fixpoint zero (t : type) : value :=
  match t with
  | TBasic BBool => VBool false
  | TBasic BInt => VInt 0
  | TBasic BUint => VUint 0
  | TBasic BUintptr => VUintptr Nil
  | TBasic BFloat64 => VFloat64 0
  | TBasic BString => VString Nil ""
  | TUnsafePointer | TPtr _ | TMap _ _ | TChan _ _ | TFunc _ => VPointer Nil
  | TSlice _ => VSlice Nil 0 0
  | TArray n e => VArray (replicate n (zero e))
  | TStruct fs => VStruct (zero_fields fs)
  | TInterface _ => VIface None
  | TNamed _ u _ _ => zero u
  end
with zero_fields (fs : fields) : list value :=
  match fs with
  | FNil => []
  | FCons _ t rest => zero t :: zero_fields rest
  end.

(** Whether a reference word is empty. *)
Definition ref_is_nil (v : value) : bool :=
  match v with
  | VPointer p | VSlice p _ _ => is_Nil p
  | VIface d => match d with None => true | Some _ => false end
  | _ => false
  end.

(** A float compares equal to zero when it is [+0] or [-0]: every bit but
    the sign bit, bit 63, is clear. *)
Definition float_is_zero (bits : Z) : bool :=
  Z.land bits (Z.ones 63) =? 0.

(** [Value.IsZero] as reflect has it from Go 1.22 on, where it agrees
    with comparing to the zero value by [==]: a number equal to zero (a
    float also when it is [-0]), the empty string, an empty reference, and
    an array or struct whose components are zero, the blank fields ([_])
    of a struct left out of the test. *)
Definition scalar_isZero (v : value) : bool :=
  match v with
  | VBool b => negb b
  | VInt n | VUint n => n =? 0
  | VFloat64 bits => float_is_zero bits
  | VUintptr p => is_Nil p
  | VString _ s => String.eqb s ""
  | VPointer p | VSlice p _ _ => is_Nil p
  | VIface d => match d with None => true | Some _ => false end
  | VArray _ | VStruct _ => false
  end.

Fixpoint isZero (t : type) (v : value) {struct t} : bool :=
  match t with
  | TNamed _ u _ _ => isZero u v
  | TArray _ e =>
      match v with
      | VArray es => forallb (isZero e) es
      | _ => false
      end
  | TStruct fs =>
      match v with
      | VStruct vs => isZero_fields fs vs
      | _ => false
      end
  | _ => scalar_isZero v
  end
with isZero_fields (fs : fields) (vs : list value) {struct fs} : bool :=
  match fs, vs with
  | FCons n t rest, v :: vs' =>
      (String.eqb n "_" || isZero t v) && isZero_fields rest vs'
  | _, _ => true
  end.

End Mem.

(** ** Panics, outcomes and the heap monad *)

Module Run.
Import GoType Mem.

(** What a Go panic carries.  [ValueError] is [*reflect.ValueError]: the
    method called and the kind it was called on. *)
Inductive panic :=
| PanicString (msg : string)
| ValueError (method : string) (k : Kind)
| NilType (fn : string)
| NonInterfaceType (fn : string)
| NotAssignable (src dst : type)
| NotConvertible (src dst : type)
| Unaddressable (fn : string)
| Unexported (fn : string)
| NilDereference.

(** Handles and their descriptors, as the structs of [oop.go].  The two
    function fields and the vtable slice of [ClassInfo] are never written
    by the package; they are kept as the words they occupy. *)
Record TypeInfo := {
  TypeName : string;
  TypeID : pointer;
}.

Record ClassInfo := {
  Vtables : value;
  TypeInfo_ : pointer;
  Offset : Z;
  IsClass : pointer;
  Deinit_ : pointer;
}.

Record KlassHeader := {
  Info : pointer;
}.

Record Klass := {
  Header : KlassHeader;
  Allocator : any;
  Class : any;
}.

(** What a heap block holds. *)
Inductive object :=
| OValue (t : type) (v : value)
| OTypeInfo (ti : TypeInfo)
| OClassInfo (ci : ClassInfo)
| OKlass (k : Klass).

Abbreviation heap := (gmap positive object).

(** The result of running Go code from a heap: a value and the heap it
    leaves, a panic and the heap at the time of the panic, or no defined
    behaviour (a memory access that the rules of [unsafe.Pointer] do not
    allow). *)
Inductive outcome (A : Type) :=
| Ok (a : A) (h : heap)
| Panics (e : panic) (h : heap)
| Undefined.
Arguments Ok {A} a h.
Arguments Panics {A} e h.
Arguments Undefined {A}.

Definition M (A : Type) : Type := heap -> outcome A.

Definition ret {A} (a : A) : M A := fun h => Ok a h.

Definition bind {A B} (m : M A) (f : A -> M B) : M B :=
  fun h =>
    match m h with
    | Ok a h' => f a h'
    | Panics e h' => Panics e h'
    | Undefined => Undefined
    end.

Definition throw {A} (e : panic) : M A := fun h => Panics e h.

Definition undefined {A} : M A := fun _ => Undefined.

Declare Scope go_scope.
Delimit Scope go_scope with go.
Notation "x <- m ;; k" := (bind m (fun x => k))
  (at level 100, m at next level, right associativity) : go_scope.
Notation "m ;;; k" := (bind m (fun _ => k))
  (at level 100, right associativity) : go_scope.
#[local] Open Scope go_scope.

(** Allocation: the new block takes an identifier that is not in use. *)
Definition fresh_block (h : heap) : positive := fresh (dom h).

Definition alloc (o : object) : M pointer :=
  fun h => let n := fresh_block h in Ok (At (HeapBlock n) 0 []) (<[n := o]> h).

(** Selecting a component of a value along a path, and replacing it. *)
Fixpoint select (sel : list nat) (v : value) : option value :=
  match sel with
  | [] => Some v
  | i :: sel' =>
      match v with
      | VStruct vs | VArray vs =>
          match vs !! i with
          | Some w => select sel' w
          | None => None
          end
      | _ => None
      end
  end.

Fixpoint replace (sel : list nat) (v w : value) : option value :=
  match sel with
  | [] => Some w
  | i :: sel' =>
      match v with
      | VStruct vs =>
          match vs !! i with
          | Some u =>
              match replace sel' u w with
              | Some u' => Some (VStruct (<[i := u']> vs))
              | None => None
              end
          | None => None
          end
      | VArray vs =>
          match vs !! i with
          | Some u =>
              match replace sel' u w with
              | Some u' => Some (VArray (<[i := u']> vs))
              | None => None
              end
          | None => None
          end
      | _ => None
      end
  end.

(** Reading and writing a Go variable through a pointer.  The access is
    defined when the pointer is the undisplaced address of a live block
    holding a Go value. *)
Definition load (p : pointer) : M value :=
  fun h =>
    match p with
    | Nil => Panics NilDereference h
    | At (HeapBlock n) 0 sel =>
        match h !! n with
        | Some (OValue t v) =>
            match select sel v with
            | Some w => Ok w h
            | None => Undefined
            end
        | _ => Undefined
        end
    | At _ _ _ => Undefined
    end.

Definition store (p : pointer) (w : value) : M unit :=
  fun h =>
    match p with
    | Nil => Panics NilDereference h
    | At (HeapBlock n) 0 sel =>
        match h !! n with
        | Some (OValue t v) =>
            match replace sel v w with
            | Some v' => Ok tt (<[n := OValue t v']> h)
            | None => Undefined
            end
        | _ => Undefined
        end
    | At _ _ _ => Undefined
    end.

End Run.

(** ** The part of package reflect that the package calls *)

Module Reflect.
Import GoType Mem Run.
#[local] Open Scope go_scope.

(** The Go release the package is built with.  From Go 1.23 on,
    [Value.Pointer] also accepts a string and returns the address of its
    bytes; nothing else the package calls depends on the release. *)
Inductive toolchain := Go1_22 | Go1_23.

(** [reflect.Value]: the zero Value, a value held by the Value itself (not
    addressable), or a variable in memory (addressable).  [ro] is the flag
    of a Value reached through an unexported struct field. *)
Inductive Value :=
| Zero_
| Val (ro : bool) (t : type) (v : value)
| Var (ro : bool) (t : type) (p : pointer).

Definition ValueOf (i : any) : Value :=
  match i with
  | None => Zero_
  | Some (t, v) => Val false t v
  end.

(** [reflect.TypeOf]; a [reflect.Type] is an interface value, nil when
    [None]. *)
Definition TypeOf (i : any) : option type :=
  match i with
  | None => None
  | Some (t, _) => Some t
  end.

Definition Value_Kind (v : Value) : Kind :=
  match v with
  | Zero_ => Invalid
  | Val _ t _ | Var _ t _ => Kind_of t
  end.

Definition Value_Type (v : Value) : M type :=
  match v with
  | Zero_ => throw (ValueError "reflect.Value.Type" Invalid)
  | Val _ t _ | Var _ t _ => ret t
  end.

Definition Value_CanAddr (v : Value) : bool :=
  match v with
  | Var _ _ _ => true
  | _ => false
  end.

Definition Value_CanSet (v : Value) : bool :=
  match v with
  | Var ro _ _ => negb ro
  | _ => false
  end.

(** The current contents of a Value. *)
Definition contents (v : Value) : M value :=
  match v with
  | Zero_ => undefined
  | Val _ _ w => ret w
  | Var _ _ p => load p
  end.

Definition Value_Elem (v : Value) : M Value :=
  match v with
  | Zero_ => throw (ValueError "reflect.Value.Elem" Invalid)
  | Val ro t _ | Var ro t _ =>
      match Kind_of t with
      | Ptr =>
          w <- contents v ;;
          match w, Elem t with
          | VPointer Nil, _ => ret Zero_
          | VPointer p, Some e => ret (Var ro e p)
          | _, _ => undefined
          end
      | Interface =>
          w <- contents v ;;
          match w with
          | VIface None => ret Zero_
          | VIface (Some (t', w')) => ret (Val ro t' w')
          | _ => undefined
          end
      | k => throw (ValueError "reflect.Value.Elem" k)
      end
  end.

Definition Value_Addr (v : Value) : M Value :=
  match v with
  | Var ro t p => ret (Val ro (PtrTo t) (VPointer p))
  | _ => throw (Unaddressable "reflect.Value.Addr")
  end.

(** [Value.Interface]: the value boxed in [interface{}]; a Value of kind
    Interface yields the interface's own contents. *)
Definition Value_Interface (v : Value) : M any :=
  match v with
  | Zero_ => throw (ValueError "reflect.Value.Interface" Invalid)
  | Val ro t _ | Var ro t _ =>
      if ro then throw (Unexported "reflect.Value.Interface") else
      w <- contents v ;;
      match Kind_of t with
      | Interface =>
          match w with
          | VIface d => ret d
          | _ => undefined
          end
      | _ => ret (Some (t, w))
      end
  end.

(** [Value.Set]: the destination must be addressable and not read-only,
    and the source assignable to the destination's type. *)
Definition Value_Set (v x : Value) : M unit :=
  match v with
  | Zero_ => throw (ValueError "reflect.Value.Set" Invalid)
  | Val ro _ _ =>
      throw (if ro then Unexported "reflect.Value.Set"
             else Unaddressable "reflect.Value.Set")
  | Var true _ _ => throw (Unexported "reflect.Value.Set")
  | Var false t p =>
      match x with
      | Zero_ => throw (ValueError "reflect.Value.Set" Invalid)
      | Val true _ _ | Var true _ _ => throw (Unexported "reflect.Value.Set")
      | Val false xt _ | Var false xt _ =>
          if directlyAssignable t xt then
            w <- contents x ;; store p w
          else if implements t xt then
            w <- contents x ;;
            match Kind_of xt with
            | Interface => store p w
            | _ => store p (VIface (Some (xt, w)))
            end
          else throw (NotAssignable xt t)
      end
  end.

(** [Value.Convert], for the conversions that change the type and keep the
    representation ([convertOp]'s [cvtDirect]) and the conversion to an
    interface type.  The conversions between numeric kinds, strings and
    byte slices are left out: the package converts pointers only. *)
Definition Value_Convert (v : Value) (t : type) : M Value :=
  match v with
  | Zero_ => throw (ValueError "reflect.Value.Convert" Invalid)
  | Val ro src _ | Var ro src _ =>
      if haveIdenticalUnderlyingType t src then
        w <- contents v ;; ret (Val ro t w)
      else if bool_decide (Kind_of t = Ptr) && negb (HasName t)
              && bool_decide (Kind_of src = Ptr) && negb (HasName src)
              && match Elem t, Elem src with
                 | Some te, Some se => haveIdenticalUnderlyingType te se
                 | _, _ => false
                 end then
        w <- contents v ;; ret (Val ro t w)
      else if implements t src then
        w <- contents v ;;
        match Kind_of src with
        | Interface => ret (Val ro t w)
        | _ => ret (Val ro t (VIface (Some (src, w))))
        end
      else throw (NotConvertible src t)
  end.

(** [Value.Pointer]: the address word of a pointer, channel, map or
    [unsafe.Pointer], and the data pointer of a slice (and of a string).
    For a function it is not the func value's own word: a non-nil func
    value points at its closure object, and the result is the first word
    of that object, the address of the code. *)
Definition Value_Pointer (tc : toolchain) (v : Value) : M pointer :=
  match Value_Kind v with
  | Ptr | Chan | Map | UnsafePointer =>
      w <- contents v ;;
      match w with
      | VPointer p => ret p
      | _ => undefined
      end
  | Func =>
      w <- contents v ;;
      match w with
      | VPointer Nil => ret Nil
      | VPointer p =>
          code <- load (field_ptr p 0) ;;
          match code with
          | VUintptr fn => ret fn
          | _ => undefined
          end
      | _ => undefined
      end
  | Slice =>
      w <- contents v ;;
      match w with
      | VSlice p _ _ => ret p
      | _ => undefined
      end
  | String =>
      match tc with
      | Go1_22 => throw (ValueError "reflect.Value.Pointer" String)
      | Go1_23 =>
          w <- contents v ;;
          match w with
          | VString p _ => ret p
          | _ => undefined
          end
      end
  | k => throw (ValueError "reflect.Value.Pointer" k)
  end.

(** [Value.IsNil] *)
Definition Value_IsNil (v : Value) : M bool :=
  match Value_Kind v with
  | Chan | Func | Interface | Map | Ptr | Slice | UnsafePointer =>
      w <- contents v ;; ret (ref_is_nil w)
  | k => throw (ValueError "reflect.Value.IsNil" k)
  end.

(** [Value.IsZero] *)
Definition Value_IsZero (v : Value) : M bool :=
  match v with
  | Zero_ => throw (ValueError "reflect.Value.IsZero" Invalid)
  | Val _ t _ | Var _ t _ => w <- contents v ;; ret (isZero t w)
  end.

(** [Value.NumField] and [Value.Field], for a Value of kind Struct. *)
Definition Value_NumField (v : Value) : M nat :=
  match v with
  | Zero_ => throw (ValueError "reflect.Value.NumField" Invalid)
  | Val _ t _ | Var _ t _ =>
      match Kind_of t with
      | Struct => ret (fields_length (struct_fields t))
      | k => throw (ValueError "reflect.Value.NumField" k)
      end
  end.

Definition Value_Field (v : Value) (i : nat) : M Value :=
  match Value_Kind v with
  | Struct =>
      match v with
      | Zero_ => undefined
      | Val ro t w =>
          match fields_nth (struct_fields t) i, select [i] w with
          | Some (n, ft), Some wi => ret (Val (ro || negb (is_exported n)) ft wi)
          | None, _ => throw (PanicString "reflect: Field index out of range")
          | _, None => undefined
          end
      | Var ro t p =>
          match fields_nth (struct_fields t) i, p with
          | Some (n, ft), At b off sel =>
              ret (Var (ro || negb (is_exported n)) ft (At b off (sel ++ [i])))
          | None, _ => throw (PanicString "reflect: Field index out of range")
          | _, Nil => undefined
          end
      end
  | k => throw (ValueError "reflect.Value.Field" k)
  end.

(** [reflect.Zero], [reflect.New] and [reflect.NewAt] *)
Definition reflect_Zero (typ : option type) : M Value :=
  match typ with
  | None => throw (PanicString "reflect: Zero(nil)")
  | Some t => ret (Val false t (zero t))
  end.

Definition reflect_New (typ : option type) : M Value :=
  match typ with
  | None => throw (PanicString "reflect: New(nil)")
  | Some t =>
      p <- alloc (OValue t (zero t)) ;;
      ret (Val false (PtrTo t) (VPointer p))
  end.

Definition reflect_NewAt (typ : option type) (p : pointer) : M Value :=
  match typ with
  | None => throw NilDereference
  | Some t => ret (Val false (PtrTo t) (VPointer p))
  end.

(** Methods of [reflect.Type] that take a second type, which may be the
    nil interface. *)
Definition Type_Implements (t : type) (u : option type) : M bool :=
  match u with
  | None => throw (NilType "reflect: nil type passed to Type.Implements")
  | Some u' =>
      match Kind_of u' with
      | Interface => ret (implements u' t)
      | _ => throw (NonInterfaceType
                      "reflect: non-interface type passed to Type.Implements")
      end
  end.

Definition Type_AssignableTo (t : type) (u : option type) : M bool :=
  match u with
  | None => throw (NilType "reflect: nil type passed to Type.AssignableTo")
  | Some u' => ret (directlyAssignable u' t || implements u' t)
  end.

(** A method called on a nil [reflect.Type] dereferences nil. *)
Definition Type_Name (typ : option type) : M string :=
  match typ with
  | None => throw NilDereference
  | Some t => ret (Name t)
  end.

(** A [reflect.Type] is an interface holding a pointer to the type's
    descriptor; [rtype] is the descriptor's own type. *)
Definition rtype : type := TNamed "rtype" (TStruct FNil) [] [].

Definition Type_box (typ : option type) : any :=
  match typ with
  | None => None
  | Some t => Some (PtrTo rtype, VPointer (At (TypeBlock t) 0 []))
  end.

(** [Type.FieldByName], reduced to the offset of the field found. *)
Definition Type_FieldByName_Offset (t : type) (name : string) : option Z :=
  field_offset name (struct_fields t) 0.

End Reflect.

(** ** Package oop *)

Module Oop.
Import GoType Mem Run Reflect.
#[local] Open Scope go_scope.

(** The descriptors of the package's own struct types, as
    [reflect.TypeOf] reports them. *)
Definition t_uintptr : type := TBasic BUintptr.
Definition t_any : type := TInterface [].

Definition t_TypeInfo : type :=
  TNamed "TypeInfo"
    (TStruct (FCons "TypeName" (TBasic BString) (FCons "TypeID" t_uintptr FNil)))
    [] [].

Definition t_VtableInfo : type :=
  TNamed "VtableInfo"
    (TStruct (FCons "TypeID" t_uintptr (FCons "Vtable" TUnsafePointer FNil)))
    [] [].

Definition t_ClassInfo : type :=
  TNamed "ClassInfo"
    (TStruct (FCons "Vtables" (TSlice t_VtableInfo)
             (FCons "TypeInfo" (TPtr t_TypeInfo)
             (FCons "Offset" t_uintptr
             (FCons "IsClass" (TFunc "func(uintptr) bool")
             (FCons "Deinit" (TFunc "func(unsafe.Pointer)") FNil))))))
    [] [].

Definition t_KlassHeader : type :=
  TNamed "KlassHeader" (TStruct (FCons "Info" (TPtr t_ClassInfo) FNil)) [] [].

Definition t_Klass : type :=
  TNamed "Klass"
    (TStruct (FCons "Header" t_KlassHeader
             (FCons "Allocator" t_any
             (FCons "Class" t_any FNil))))
    []
    [("Ptr", "func() unsafe.Pointer"); ("Deinit", "func()")].

(** Access to a [Klass] through a [*Klass]: defined at the undisplaced
    address of a block that holds a [Klass]. *)
Definition load_Klass (p : pointer) : M Klass :=
  fun h =>
    match p with
    | Nil => Panics NilDereference h
    | At (HeapBlock n) 0 [] =>
        match h !! n with
        | Some (OKlass k) => Ok k h
        | _ => Undefined
        end
    | At _ _ _ => Undefined
    end.

Definition store_Klass (p : pointer) (k : Klass) : M unit :=
  fun h =>
    match p with
    | Nil => Panics NilDereference h
    | At (HeapBlock n) 0 [] =>
        match h !! n with
        | Some (OKlass _) => Ok tt (<[n := OKlass k]> h)
        | _ => Undefined
        end
    | At _ _ _ => Undefined
    end.

Definition set_Class (p : pointer) (c : any) : M unit :=
  k <- load_Klass p ;;
  store_Klass p {| Header := Header k; Allocator := Allocator k; Class := c |}.

(** The type of the object a block holds. *)
Definition object_type (o : object) : type :=
  match o with
  | OValue t _ => t
  | OTypeInfo _ => t_TypeInfo
  | OClassInfo _ => t_ClassInfo
  | OKlass _ => t_Klass
  end.

(** [uintptr(p)]: the address as a number.  The number does not tell a
    field from the bytes at its offset, so the selector path is resolved,
    by the layout of the block's object, into the byte displacement. *)
Definition uintptr_of (p : pointer) : M pointer :=
  fun h =>
    match p with
    | Nil => Ok Nil h
    | At b off [] => Ok (At b off []) h
    | At (HeapBlock n) off sel =>
        match h !! n with
        | Some o =>
            match path_offset (object_type o) sel with
            | Some d => Ok (At (HeapBlock n) (off + d) []) h
            | None => Undefined
            end
        | None => Undefined
        end
    | At _ _ _ => Undefined
    end.

(** A counted loop, [for i := range n]. *)
Fixpoint for_range (i n : nat) (body : nat -> M unit) : M unit :=
  match n with
  | O => ret tt
  | S n' => body i ;;; for_range (S i) n' body
  end.

Section Package.
Context (tc : toolchain).

(** [Nil.Ptr] *)
Definition Nil_Ptr : pointer := Nil.

(** [Nil.Of] *)
Definition Nil_Of (i : any) : M any :=
  match i with
  | None => ret (Some (TPtr (TBasic BInt), VPointer Nil))
  | Some _ =>
      let v := ValueOf i in
      if negb (bool_decide (Value_Kind v = Interface)) then
        throw (PanicString "not an interface type")
      else
        t <- Value_Type v ;;
        z <- reflect_Zero (Some t) ;;
        Value_Interface z
  end.

(** [makeClassInfo] *)
Definition makeClassInfo (classType : option type) : M pointer :=
  name <- Type_Name classType ;;
  id <- Value_Pointer tc (ValueOf (Type_box classType)) ;;
  ti <- alloc (OTypeInfo {| TypeName := name; TypeID := id |}) ;;
  alloc (OClassInfo {| Vtables := VSlice Nil 0 0; TypeInfo_ := ti;
                       Offset := 0; IsClass := Nil; Deinit_ := Nil |}).

(** [getClassOffset] *)
Definition getClassOffset (classType : option type) : Z :=
  let klassType := t_Klass in
  match Type_FieldByName_Offset klassType "Class" with
  | None => 0
  | Some o => o
  end.

(** [initClass] *)
Definition initClass (instance : any) : M unit :=
  let val := ValueOf instance in
  val <- (match Value_Kind val with
          | Ptr => Value_Elem val
          | _ => ret val
          end) ;;
  match Value_Kind val with
  | Struct =>
      n <- Value_NumField val ;;
      for_range 0 n (fun i =>
        field <- Value_Field val i ;;
        if Value_CanSet field then
          z <- Value_IsZero field ;;
          if z then
            ft <- Value_Type field ;;
            zv <- reflect_Zero (Some ft) ;;
            Value_Set field zv
          else ret tt
        else ret tt)
  | _ => ret tt
  end.

(** [New] *)
Definition New (allocator : any) (classType : option type) (init : any)
  : M pointer :=
  info <- makeClassInfo classType ;;
  klass <- alloc (OKlass {| Header := {| Info := info |};
                            Allocator := allocator; Class := None |}) ;;
  match init with
  | Some _ => set_Class klass init
  | None =>
      v <- reflect_New classType ;;
      c <- Value_Interface v ;;
      set_Class klass c ;;;
      k <- load_Klass klass ;;
      initClass (Class k)
  end ;;;
  ret klass.

(** [From] *)
Definition From (classPtr : pointer) (classType : option type) : M pointer :=
  if is_Nil classPtr then ret Nil else
  name <- Type_Name classType ;;
  if String.eqb name "TestStruct" then
    v <- reflect_NewAt classType classPtr ;;
    e <- Value_Elem v ;;
    a <- Value_Addr e ;;
    obj <- Value_Interface a ;;
    info <- makeClassInfo classType ;;
    alloc (OKlass {| Header := {| Info := info |};
                     Allocator := None; Class := obj |})
  else
    let classOffset := getClassOffset classType in
    address <- uintptr_of classPtr ;;
    let klassPtr := pointer_sub address classOffset in
    if is_Nil klassPtr then ret klassPtr else
    klass <- load_Klass klassPtr ;;
    match Class klass with
    | Some _ =>
        alloc (OKlass {| Header := Header klass;
                         Allocator := Allocator klass;
                         Class := Class klass |})
    | None => ret klassPtr
    end.

(** [Klass.Ptr] *)
Definition Klass_Ptr (k : pointer) : M pointer :=
  kl <- load_Klass k ;;
  Value_Pointer tc (ValueOf (Class kl)).

(** [Klass.Deinit]: the body is empty. *)
Definition Klass_Deinit (k : pointer) : M unit :=
  ret tt.

(** [Cast] *)
Definition Cast (obj : any) (targetType : option type) : M any :=
  let objValue := ValueOf obj in
  t <- Value_Type objValue ;;
  direct <- Type_Implements t targetType ;;
  if direct then Value_Interface objValue else
  viaElem <- (match Value_Kind objValue with
              | Ptr =>
                  e <- Value_Elem objValue ;;
                  et <- Value_Type e ;;
                  Type_Implements et targetType
              | _ => ret false
              end) ;;
  if viaElem then Value_Interface objValue else
  viaPtr <- (match Value_Kind objValue with
             | Ptr => ret false
             | _ =>
                 t <- Value_Type objValue ;;
                 Type_Implements (PtrTo t) targetType
             end) ;;
  copied <- (if viaPtr then
               t <- Value_Type objValue ;;
               n <- reflect_New (Some t) ;;
               newValue <- Value_Elem n ;;
               Value_Set newValue objValue ;;;
               if Value_CanAddr newValue then
                 a <- Value_Addr newValue ;;
                 r <- Value_Interface a ;;
                 ret (Some r)
               else ret None
             else ret None) ;;
  match copied with
  | Some r => ret r
  | None =>
      t <- Value_Type objValue ;;
      assignable <- Type_AssignableTo t targetType ;;
      if assignable then
        match targetType with
        | Some target =>
            c <- Value_Convert objValue target ;;
            Value_Interface c
        | None => throw NilDereference
        end
      else ret None
  end.

(** [As] *)
Definition As (obj : any) (targetType : option type) : M any :=
  let objValue := ValueOf obj in
  objValue <- (match Value_Kind objValue with
               | Ptr => Value_Elem objValue
               | _ => ret objValue
               end) ;;
  t <- Value_Type objValue ;;
  assignable <- Type_AssignableTo t targetType ;;
  if assignable then
    objValue <- (if negb (Value_CanAddr objValue) then
                   t <- Value_Type objValue ;;
                   n <- reflect_New (Some t) ;;
                   newValue <- Value_Elem n ;;
                   Value_Set newValue objValue ;;;
                   ret newValue
                 else ret objValue) ;;
    a <- Value_Addr objValue ;;
    match targetType with
    | Some target =>
        c <- Value_Convert a (PtrTo target) ;;
        Value_Interface c
    | None => throw NilDereference
    end
  else ret None.

(** [AsPtr] *)
Definition AsPtr (obj : any) : M pointer :=
  Value_Pointer tc (ValueOf obj).

(** [NullOrZeroInterface] *)
Definition NullOrZeroInterface (i : any) : M any :=
  let t := TypeOf i in
  match t with
  | None => ret None
  | Some t' =>
      match Kind_of t' with
      | Interface => z <- reflect_Zero t ;; Value_Interface z
      | _ => z <- reflect_Zero t ;; Value_Interface z
      end
  end.

(** [NilInterface] *)
Definition NilInterface (i : any) : M any := NullOrZeroInterface i.

(** [IsNil] *)
Definition IsNil (obj : any) : M bool :=
  match obj with
  | None => ret true
  | Some _ =>
      let v := ValueOf obj in
      match Value_Kind v with
      | Chan | Func | Interface | Map | Ptr | Slice => Value_IsNil v
      | _ => ret false
      end
  end.

End Package.

End Oop.

(** ** The wrapper of friendly.go, as far as the lifecycle goes *)

Module Friendly.
Import GoType Mem Run Reflect Oop.
#[local] Open Scope go_scope.

(** [ObjectWrapper] has one field, [klass *Klass]; methods reach it
    through the receiver [o *ObjectWrapper]. *)
Definition t_ObjectWrapper : type :=
  TNamed "ObjectWrapper" (TStruct (FCons "klass" (TPtr t_Klass) FNil)) []
    [("As", "func(interface {}) (interface {}, error)");
     ("Destroy", "func()");
     ("GetUnderlyingObject", "func() interface {}")].

Definition load_klass (o : pointer) : M pointer :=
  w <- load (field_ptr o 0) ;;
  match w with
  | VPointer k => ret k
  | _ => undefined
  end.

(** [ObjectFactory.CreateObject]; the factory is passed as the allocator
    it holds. *)
Definition CreateObject (tc : toolchain) (allocator : any) (initializer : any)
  : M pointer :=
  match initializer with
  | None => ret Nil
  | Some (t, _) =>
      let objType := match Kind_of t with
                     | Ptr => Elem t
                     | _ => Some t
                     end in
      klass <- New tc allocator objType initializer ;;
      alloc (OValue t_ObjectWrapper (VStruct [VPointer klass]))
  end.

(** [ObjectWrapper.Destroy] *)
Definition Destroy (o : pointer) : M unit :=
  k <- load_klass o ;;
  if negb (is_Nil k) then
    Klass_Deinit k ;;;
    store (field_ptr o 0) (VPointer Nil)
  else ret tt.

(** [ObjectWrapper.GetUnderlyingObject] *)
Definition GetUnderlyingObject (o : pointer) : M any :=
  k <- load_klass o ;;
  if is_Nil k then ret None else
  kl <- load_Klass k ;;
  ret (Class kl).

(** [ObjectFactory] has one field, [allocator interface{}]. *)
Definition t_ObjectFactory : type :=
  TNamed "ObjectFactory" (TStruct (FCons "allocator" t_any FNil)) []
    [("CreateObject", "func(interface {}) *oop.ObjectWrapper")].

(** [NewObjectFactory] *)
Definition NewObjectFactory : M pointer :=
  alloc (OValue t_ObjectFactory (VStruct [VIface None])).

(** [ObjectFactory.CreateObject] through the receiver [f *ObjectFactory]:
    the allocator is read from the factory when [New] is called. *)
Definition ObjectFactory_CreateObject (tc : toolchain) (f : pointer)
    (initializer : any) : M pointer :=
  match initializer with
  | None => ret Nil
  | Some _ =>
      w <- load (field_ptr f 0) ;;
      match w with
      | VIface allocator => CreateObject tc allocator initializer
      | _ => undefined
      end
  end.

(** A Go [error]: nil, or the message of a [fmt.Errorf] without verbs. *)
Definition error : Type := option string.

(** [ObjectWrapper.As] *)
Definition ObjectWrapper_As (o : pointer) (interfacePtr : any)
  : M (any * error) :=
  match interfacePtr with
  | None => ret (None, Some "interfacePtr cannot be nil")
  | Some (interfaceType, _) =>
      k <- load_klass o ;;
      uninitialized <- (if is_Nil k then ret true else
                        kl <- load_Klass k ;;
                        ret (match Class kl with
                             | None => true
                             | Some _ => false
                             end)) ;;
      if uninitialized then ret (None, Some "object is not initialized") else
      match Kind_of interfaceType with
      | Ptr =>
          match Elem interfaceType with
          | Some e =>
              match Kind_of e with
              | Interface =>
                  kl <- load_Klass k ;;
                  r <- Cast (Class kl) (Some e) ;;
                  ret (r, None)
              | _ => ret (None, Some "interfacePtr must be a pointer to an interface type")
              end
          | None => undefined
          end
      | _ => ret (None, Some "interfacePtr must be a pointer to an interface type")
      end
  end.

End Friendly.

(** ** Vocabulary of the specification *)

Module Spec.
Import GoType Mem Run Reflect Oop.
#[local] Open Scope go_scope.

(** The kinds the specification calls reference-like: pointer, slice,
    map, channel, function and capability-reference (interface). *)
Definition reference_like (k : Kind) : bool :=
  match k with
  | Ptr | Slice | Map | Chan | Func | Interface => true
  | _ => false
  end.

(** The kinds whose values [Value.Pointer] has an address for. *)
Definition has_address (tc : toolchain) (k : Kind) : bool :=
  match k with
  | Ptr | Chan | Map | UnsafePointer | Func | Slice => true
  | String => match tc with Go1_23 => true | Go1_22 => false end
  | _ => false
  end.

(** The address word of a representation. *)
Definition address_word (v : value) : option pointer :=
  match v with
  | VPointer p | VSlice p _ _ | VString p _ => Some p
  | _ => None
  end.

(** Passing an argument of static type [static] where [interface{}] is
    expected: an interface value hands over its dynamic type and value, a
    value of any other type is boxed with its own type. *)
Definition to_any (static : type) (v : value) : any :=
  match Kind_of static with
  | Interface =>
      match v with
      | VIface d => d
      | _ => None
      end
  | _ => Some (static, v)
  end.

(** The type [As] tests against the target: the type of the input, or of
    its referent when the input is a pointer; there is none for the nil
    interface and for a nil pointer. *)
Definition deref_type (obj : any) : option type :=
  match obj with
  | None => None
  | Some (t, v) =>
      match Kind_of t with
      | Ptr =>
          match v with
          | VPointer Nil => None
          | VPointer _ => Elem t
          | _ => None
          end
      | _ => Some t
      end
  end.

(** What a successful [As] refers to: the pointer it was given, or the
    address of a new block that holds a copy of the value it was given;
    and the heap it leaves. *)
Definition As_referent (obj : any) (h : heap) : pointer * heap :=
  match obj with
  | None => (Nil, h)
  | Some (t, v) =>
      match Kind_of t, v with
      | Ptr, VPointer p => (p, h)
      | _, _ =>
          (At (HeapBlock (fresh_block h)) 0 [],
           <[fresh_block h := OValue t v]> h)
      end
  end.

Definition is_panic {A} (o : outcome A) : bool :=
  match o with
  | Panics _ _ => true
  | _ => false
  end.

(** The identity key of the descriptor a [*ClassInfo] points to:
    [info.TypeInfo.TypeID]. *)
Definition load_ClassInfo (p : pointer) : M ClassInfo :=
  fun h =>
    match p with
    | Nil => Panics NilDereference h
    | At (HeapBlock n) 0 [] =>
        match h !! n with
        | Some (OClassInfo ci) => Ok ci h
        | _ => Undefined
        end
    | At _ _ _ => Undefined
    end.

Definition load_TypeInfo (p : pointer) : M TypeInfo :=
  fun h =>
    match p with
    | Nil => Panics NilDereference h
    | At (HeapBlock n) 0 [] =>
        match h !! n with
        | Some (OTypeInfo ti) => Ok ti h
        | _ => Undefined
        end
    | At _ _ _ => Undefined
    end.

Definition TypeID_of (info : pointer) : M pointer :=
  ci <- load_ClassInfo info ;;
  ti <- load_TypeInfo (TypeInfo_ ci) ;;
  ret (TypeID ti).

(** Address extraction followed by address recovery, for a handle built
    by [New]: the owned value of the handle and the owned value of the
    handle that [From] returns for the handle's address. *)
Definition From_Ptr (tc : toolchain) (allocator : any) (T : type) (init : any)
  : M (any * any) :=
  k <- New tc allocator (Some T) init ;;
  p <- Klass_Ptr tc k ;;
  k' <- From tc p (Some T) ;;
  h <- load_Klass k ;;
  h' <- load_Klass k' ;;
  ret (Class h, Class h').

(** [h.Deinit(); h.Deinit()] on a new handle. *)
Definition Deinit_twice (tc : toolchain) (T : type) (init : any) : M unit :=
  k <- New tc None (Some T) init ;;
  Klass_Deinit k ;;;
  Klass_Deinit k.

(** Every block of [h] is still in [h'], with the same contents. *)
Definition preserved (h h' : heap) : Prop :=
  forall n o, h !! n = Some o -> h' !! n = Some o.

(** The heap an outcome leaves keeps every block of [h]. *)
Definition frames {A} (h : heap) (o : outcome A) : Prop :=
  match o with
  | Ok _ h' | Panics _ h' => preserved h h'
  | Undefined => True
  end.

(** What [initClass] leaves in a field: the zero value of the field's
    type when the field is exported and was zero, the field's value
    otherwise. *)
Definition cleared (f : string * type) (v : value) : value :=
  if is_exported (fst f) && isZero (snd f) v then zero (snd f) else v.

(** The class type [CreateObject] passes to [New] for an initializer of
    type [t]: the element type of a pointer, the type itself otherwise. *)
Definition class_type_of (t : type) : option type :=
  match Kind_of t with
  | Ptr => Elem t
  | _ => Some t
  end.

(** The body of the loop of [initClass], for the struct [val]. *)
Definition initClass_body (val : Value) (i : nat) : M unit :=
  field <- Value_Field val i ;;
  if Value_CanSet field then
    z <- Value_IsZero field ;;
    if z then
      ft <- Value_Type field ;;
      zv <- reflect_Zero (Some ft) ;;
      Value_Set field zv
    else ret tt
  else ret tt.

(** A computation that keeps every block of the heap it starts from. *)
Definition framed {A} (m : M A) : Prop := forall h, frames h (m h).

End Spec.

(** ** The types of the tests and of the specification's scenarios *)

Module Fixtures.
Import GoType Mem Run Reflect Oop.

Definition GetValue : method := ("GetValue", "func() int").
Definition Sound : method := ("Sound", "func() string").

(** [TestInterface], [TestStruct] and [TestStruct2] of oop_test.go; the
    methods of the structs have pointer receivers. *)
Definition TestInterface : type :=
  TNamed "TestInterface" (TInterface [GetValue]) [] [].
Definition TestStruct : type :=
  TNamed "TestStruct" (TStruct (FCons "Value" (TBasic BInt) FNil)) [] [GetValue].
Definition TestStruct2 : type :=
  TNamed "TestStruct2" (TStruct (FCons "Value" (TBasic BInt) FNil)) [] [GetValue].

(** The animals of the specification's scenarios. *)
Definition Animal : type := TNamed "Animal" (TInterface [Sound]) [] [].
Definition Dog : type :=
  TNamed "Dog" (TStruct (FCons "Name" (TBasic BString) FNil)) [] [Sound].
Definition Cat : type :=
  TNamed "Cat" (TStruct (FCons "Name" (TBasic BString) FNil)) [] [Sound].

Definition str (n : positive) (s : string) : value :=
  VString (At (DataBlock n) 0 []) s.

(** [Dog{Name: "Rex"}] *)
Definition rex : value := VStruct [str 1 "Rex"].

(** A heap with one [TestStruct{Value: 42}] and one [Dog{Name: "Rex"}],
    and pointers to them. *)
Definition heap0 : heap :=
  <[2%positive := OValue Dog rex]>
    {[ 1%positive := OValue TestStruct (VStruct [VInt 42]) ]}.

Definition ts : any := Some (TPtr TestStruct, VPointer (At (HeapBlock 1) 0 [])).
Definition rexPtr : any := Some (TPtr Dog, VPointer (At (HeapBlock 2) 0 [])).

(** The nil pointer to a [Dog]. *)
Definition nilDog : any := Some (TPtr Dog, VPointer Nil).

(** [make(chan int)], and the type [<-chan int]. *)
Definition chanInt : any :=
  Some (TChan BothDir (TBasic BInt), VPointer (At (HeapBlock 9) 0 [])).
Definition recvChanInt : type := TChan RecvDir (TBasic BInt).

(** [var iface TestInterface = &TestStruct{Value: 42}], as a variable of
    interface type holds it. *)
Definition iface : value := VIface ts.

(** A type whose method has a value receiver, so that the type itself
    implements [Animal]. *)
Definition Bird : type :=
  TNamed "Bird" (TStruct (FCons "Name" (TBasic BString) FNil)) [Sound] [].

(** [heap0] with two handles: block 3 owns the pointer to the
    [TestStruct], block 4 owns the pointer to the [Dog]. *)
Definition tsKlass : Klass :=
  {| Header := {| Info := Nil |}; Allocator := None; Class := ts |}.
Definition rexKlass : Klass :=
  {| Header := {| Info := Nil |}; Allocator := None; Class := rexPtr |}.
Definition heap1 : heap :=
  <[4%positive := OKlass rexKlass]> (<[3%positive := OKlass tsKlass]> heap0).

(** [heap1] with a handle, block 8, that owns the address of the [Class]
    field of the handle of block 4. *)
Definition classFieldKlass : Klass :=
  {| Header := {| Info := Nil |}; Allocator := None;
     Class := Some (TPtr t_any, VPointer (At (HeapBlock 4) 0 [2%nat])) |}.
Definition heap5 : heap := <[8%positive := OKlass classFieldKlass]> heap1.

(** [heap1] with a wrapper, block 5, around the handle of block 4. *)
Definition heap2 : heap :=
  <[5%positive := OValue Friendly.t_ObjectWrapper
                    (VStruct [VPointer (At (HeapBlock 4) 0 [])])]> heap1.

(** A function: the address of its code, its closure object (block 6 of
    [heap3], a struct whose first word is the address of the code) and
    the func value, which is the address of the closure. *)
Definition t_closure : type := TStruct (FCons "F" (TBasic BUintptr) FNil).
Definition barkCode : pointer := At (DataBlock 2) 0 [].
Definition heap3 : heap :=
  <[6%positive := OValue t_closure (VStruct [VUintptr barkCode])]> heap0.
Definition bark : any :=
  Some (TFunc "func() string", VPointer (At (HeapBlock 6) 0 [])).


(** [NonImplementedInterface] of [TestCast]. *)
Definition NonImplementedInterface : type :=
  TNamed "NonImplementedInterface"
    (TInterface [("NonExistentMethod", "func()")]) [] [].

(** The value a run returns, if it returns. *)
Definition value_of {A} (o : outcome A) : option A :=
  match o with
  | Ok a _ => Some a
  | _ => None
  end.

End Fixtures.

(** * Properties *)

Module Props.
Import GoType Mem Run Reflect Oop Friendly Spec Fixtures.
#[local] Open Scope go_scope.

(** ** Types and zero values *)

Lemma Kind_of_underlying (t : type) : Kind_of (underlying t) = Kind_of t.
Proof.
  unfold Kind_of. induction t; simpl; auto.
Qed.

Lemma underlying_idem (t : type) : underlying (underlying t) = underlying t.
Proof. induction t; simpl; auto. Qed.

Lemma zero_underlying (t : type) : zero (underlying t) = zero t.
Proof. induction t; simpl; auto. Qed.

(** The zero value of a type of reference-like kind is the empty
    reference. *)
Lemma zero_reference_like (t : type) :
  reference_like (Kind_of t) = true -> ref_is_nil (zero t) = true.
Proof.
  rewrite <- Kind_of_underlying, <- zero_underlying.
  unfold Kind_of. rewrite underlying_idem.
  destruct (underlying t) as [[]| | | | | | | | | |]; simpl; auto; discriminate.
Qed.

Lemma zero_interface (t : type) :
  Kind_of t = Interface -> zero t = VIface None.
Proof.
  rewrite <- Kind_of_underlying, <- zero_underlying.
  unfold Kind_of. rewrite underlying_idem.
  destruct (underlying t) as [[]| | | | | | | | | |]; simpl; auto; discriminate.
Qed.

Lemma forallb_replicate {A} (f : A -> bool) (n : nat) (x : A) :
  f x = true -> forallb f (replicate n x) = true.
Proof. intros Hx. induction n; simpl; [reflexivity | now rewrite Hx]. Qed.

(** The zero value of every type is zero in the sense of [Value.IsZero]. *)
Lemma zero_isZero (t : type) : isZero t (zero t) = true.
Proof.
  induction t using type_mut
    with (P0 := fun fs => isZero_fields fs (zero_fields fs) = true);
    simpl; auto.
  - destruct b; reflexivity.
  - now apply forallb_replicate.
  - rewrite IHt, IHt0. now rewrite orb_true_r.
Qed.

Lemma underlying_not_named (t : type) n u v p : underlying t <> TNamed n u v p.
Proof. induction t; simpl; auto; discriminate. Qed.

Lemma fields_nth_zero (fs : fields) (i : nat) (f : string * type) :
  fields_nth fs i = Some f -> zero_fields fs !! i = Some (zero (snd f)).
Proof.
  revert i. induction fs as [|n t rest IH]; simpl; intros i Hi; [discriminate |].
  destruct i; [now injection Hi as <- | now apply IH].
Qed.

Lemma zero_fields_length (fs : fields) :
  length (zero_fields fs) = fields_length fs.
Proof. induction fs; simpl; congruence. Qed.

(** The zero value of a type, kind by kind. *)
Lemma zero_by_kind (t : type) :
  match Kind_of t with
  | Bool => zero t = VBool false
  | Int => zero t = VInt 0
  | Uint => zero t = VUint 0
  | Uintptr => zero t = VUintptr Nil
  | Float64 => zero t = VFloat64 0
  | String => zero t = VString Nil ""
  | Ptr | Map | Chan | Func | UnsafePointer => zero t = VPointer Nil
  | Slice => zero t = VSlice Nil 0 0
  | Interface => zero t = VIface None
  | Array =>
      exists n e,
        underlying t = TArray n e /\ zero t = VArray (replicate n (zero e))
  | Struct =>
      exists vs,
        zero t = VStruct vs
        /\ length vs = fields_length (struct_fields t)
        /\ forall j f, fields_nth (struct_fields t) j = Some f ->
                       vs !! j = Some (zero (snd f))
  | Invalid => False
  end.
Proof.
  unfold Kind_of, struct_fields. rewrite <- (zero_underlying t).
  destruct (underlying t) as [[]| | | |n e| | | |fs| |] eqn:E; simpl;
    try reflexivity.
  - exists n, e. split; reflexivity.
  - exists (zero_fields fs). split; [reflexivity |].
    split; [apply zero_fields_length |]. intros j f. apply fields_nth_zero.
  - exact (underlying_not_named _ _ _ _ _ E).
Qed.

(** ** Nil and zero values *)

(** C4.  [IsNil] returns true for the nil interface; for a value of a
    reference-like kind (pointer, slice, map, channel, function,
    interface) it returns whether the reference is empty, so true when it
    is; for a value of any other kind it returns false.  On the zero value
    of a type it is true exactly when the type's kind is reference-like:
    an all-zero struct is not nil. *)
Theorem IsNil_reference_like_or_false :
  (forall h, IsNil None h = Ok true h)
  /\ (forall t v h,
        IsNil (Some (t, v)) h
        = Ok (reference_like (Kind_of t) && ref_is_nil v) h)
  /\ (forall t h,
        IsNil (Some (t, zero t)) h = Ok (reference_like (Kind_of t)) h)
  /\ (forall h,
        IsNil (Some (TestStruct, zero TestStruct)) h = Ok false h
        /\ IsNil (Some (TPtr TestStruct, VPointer Nil)) h = Ok true h
        /\ IsNil ts h = Ok false h).
Proof.
  assert (Hgen : forall t v h,
             IsNil (Some (t, v)) h
             = Ok (reference_like (Kind_of t) && ref_is_nil v) h).
  { intros t v h. unfold IsNil, Value_IsNil. simpl.
    destruct (Kind_of t); reflexivity. }
  split; [reflexivity |]. split; [exact Hgen |]. split.
  - intros t h. rewrite Hgen. f_equal.
    destruct (reference_like (Kind_of t)) eqn:E; [| reflexivity].
    now rewrite zero_reference_like.
  - intros h. rewrite !Hgen. repeat split.
Qed.

(** C7.  [NullOrZeroInterface] returns nil for the nil interface and
    otherwise the empty representative of the input's dynamic type [t]:
    the nil interface if [t] is an interface type, and else the zero value
    of [t] boxed with type [t].  That value is, by the kind of [t]: false,
    the number 0, the float +0, the empty string, the nil reference (for a
    pointer, map, channel, function, [unsafe.Pointer] and slice), an array
    of zero elements, and a struct with one zero value per field, of the
    field's type; [Value.IsZero] holds of it.  So the result for [42] is
    the [int] 0, for [Dog{Name: "Rex"}] the [Dog] with the empty name, and
    for a [*TestStruct], also when it is passed in a variable of type
    [TestInterface], the nil [*TestStruct], not the nil interface. *)
Theorem NullOrZeroInterface_empty_representative :
  (forall h, NullOrZeroInterface None h = Ok None h)
  /\ (forall t v h,
        NullOrZeroInterface (Some (t, v)) h
        = Ok (if bool_decide (Kind_of t = Interface) then None
              else Some (t, zero t)) h)
  /\ (forall t, isZero t (zero t) = true)
  /\ (forall t,
        match Kind_of t with
        | Bool => zero t = VBool false
        | Int => zero t = VInt 0
        | Uint => zero t = VUint 0
        | Uintptr => zero t = VUintptr Nil
        | Float64 => zero t = VFloat64 0
        | String => zero t = VString Nil ""
        | Ptr | Map | Chan | Func | UnsafePointer => zero t = VPointer Nil
        | Slice => zero t = VSlice Nil 0 0
        | Interface => zero t = VIface None
        | Array =>
            exists n e,
              underlying t = TArray n e
              /\ zero t = VArray (replicate n (zero e))
        | Struct =>
            exists vs,
              zero t = VStruct vs
              /\ length vs = fields_length (struct_fields t)
              /\ forall j f, fields_nth (struct_fields t) j = Some f ->
                             vs !! j = Some (zero (snd f))
        | Invalid => False
        end)
  /\ (forall h,
        NullOrZeroInterface (Some (TBasic BInt, VInt 42)) h
        = Ok (Some (TBasic BInt, VInt 0)) h
        /\ NullOrZeroInterface (Some (Dog, rex)) h
           = Ok (Some (Dog, VStruct [VString Nil ""])) h
        /\ NullOrZeroInterface ts h
           = Ok (Some (TPtr TestStruct, VPointer Nil)) h
        /\ NullOrZeroInterface (to_any TestInterface iface) h
           = Ok (Some (TPtr TestStruct, VPointer Nil)) h
        /\ NullOrZeroInterface (to_any TestInterface (VIface None)) h
           = Ok None h).
Proof.
  split; [reflexivity |]. split; [| split; [exact zero_isZero |]].
  - intros t v h. unfold NullOrZeroInterface, TypeOf.
    case_bool_decide as Hk.
    + rewrite Hk. unfold reflect_Zero, bind, ret, Value_Interface. simpl.
      rewrite Hk. now rewrite (zero_interface t Hk).
    + destruct (Kind_of t) eqn:E; try congruence;
        unfold reflect_Zero, bind, ret, Value_Interface; simpl;
        rewrite E; reflexivity.
  - split; [exact zero_by_kind |]. intros h. repeat split.
Qed.

(** ** Casting the nil interface *)

(** C10.  For every target type, also the nil [reflect.Type], [Cast] and
    [As] panic on the nil interface: [reflect.ValueOf(nil)] is the zero
    Value, and [Value.Type] panics on it.  The outcome is a panic, not the
    [nil] result of a failed cast. *)
Theorem Cast_As_nil_subject_panics :
  forall (targetType : option type) (h : heap),
    Cast None targetType h = Panics (ValueError "reflect.Value.Type" Invalid) h
    /\ As None targetType h = Panics (ValueError "reflect.Value.Type" Invalid) h
    /\ Cast None targetType h <> Ok None h
    /\ As None targetType h <> Ok None h.
Proof.
  intros targetType h. repeat split; discriminate.
Qed.

(** ** The heap *)

Lemma fresh_block_None (h : heap) : h !! fresh_block h = None.
Proof. unfold fresh_block. apply not_elem_of_dom, is_fresh. Qed.

Lemma fresh_block_ne (h : heap) (n : positive) :
  is_Some (h !! n) -> fresh_block h <> n.
Proof.
  intros [o Ho] E. rewrite <- E, fresh_block_None in Ho. discriminate.
Qed.

Lemma preserved_refl (h : heap) : preserved h h.
Proof. intros n o Hn. exact Hn. Qed.

Lemma preserved_trans (h1 h2 h3 : heap) :
  preserved h1 h2 -> preserved h2 h3 -> preserved h1 h3.
Proof. intros H12 H23 n o Hn. apply H23, H12, Hn. Qed.

Lemma preserved_alloc (h : heap) (o : object) :
  preserved h (<[fresh_block h := o]> h).
Proof.
  intros n o' Hn. rewrite lookup_insert_ne; [exact Hn |].
  intros <-. rewrite fresh_block_None in Hn. discriminate.
Qed.

Lemma preserved_alloc_store (h : heap) (o o' : object) :
  preserved h (<[fresh_block h := o']> (<[fresh_block h := o]> h)).
Proof. rewrite insert_insert_eq. apply preserved_alloc. Qed.

Create HintDb heap.
#[local] Hint Resolve preserved_refl preserved_alloc : heap.

(** ** Class descriptors *)

(** What [makeClassInfo] does for a type: it allocates a [TypeInfo] with
    the type's name and the address of the type's descriptor, then a
    [ClassInfo] pointing to it. *)
Lemma makeClassInfo_eq (tc : toolchain) (T : type) (h : heap) :
  let n1 := fresh_block h in
  let h1 := <[n1 := OTypeInfo {| TypeName := Name T;
                                 TypeID := At (TypeBlock T) 0 [] |}]> h in
  let n2 := fresh_block h1 in
  makeClassInfo tc (Some T) h
  = Ok (At (HeapBlock n2) 0 [])
       (<[n2 := OClassInfo {| Vtables := VSlice Nil 0 0;
                              TypeInfo_ := At (HeapBlock n1) 0 [];
                              Offset := 0; IsClass := Nil; Deinit_ := Nil |}]> h1).
Proof. reflexivity. Qed.

Lemma makeClassInfo_preserved (tc : toolchain) (T : type) (h h' : heap) p :
  makeClassInfo tc (Some T) h = Ok p h' -> preserved h h'.
Proof.
  rewrite makeClassInfo_eq. intros [= <- <-].
  eapply preserved_trans; apply preserved_alloc.
Qed.

Lemma makeClassInfo_TypeID (tc : toolchain) (T : type) (h h' : heap) p :
  makeClassInfo tc (Some T) h = Ok p h' ->
  TypeID_of p h' = Ok (At (TypeBlock T) 0 []) h'.
Proof.
  rewrite makeClassInfo_eq. intros [= <- <-].
  unfold TypeID_of, bind, load_ClassInfo. rewrite lookup_insert_eq. simpl.
  unfold load_TypeInfo. rewrite lookup_insert_ne.
  - rewrite lookup_insert_eq. reflexivity.
  - apply fresh_block_ne. rewrite lookup_insert_eq. eauto.
Qed.

Lemma TypeID_of_preserved (p id : pointer) (h h' : heap) :
  TypeID_of p h = Ok id h -> preserved h h' -> TypeID_of p h' = Ok id h'.
Proof.
  unfold TypeID_of, bind, load_ClassInfo, load_TypeInfo, ret.
  intros H Hp.
  destruct p as [| [n| |] off sel]; try discriminate.
  destruct off; try discriminate. destruct sel; try discriminate.
  destruct (h !! n) as [[| |ci|]|] eqn:En; try discriminate.
  rewrite (Hp _ _ En).
  destruct (TypeInfo_ ci) as [| [m| |] off sel]; try discriminate.
  destruct off; try discriminate. destruct sel; try discriminate.
  destruct (h !! m) as [[|ti| |]|] eqn:Em; try discriminate.
  rewrite (Hp _ _ Em). congruence.
Qed.

(** C5.  Two calls of [makeClassInfo] for the same type return
    descriptors with the same identity key: in the heap the second call
    leaves, the [TypeID] of both is the address of the type's descriptor. *)
Theorem makeClassInfo_TypeID_idempotent :
  forall (tc : toolchain) (T : type) (h : heap),
  exists c1 h1 c2 h2,
    makeClassInfo tc (Some T) h = Ok c1 h1
    /\ makeClassInfo tc (Some T) h1 = Ok c2 h2
    /\ TypeID_of c1 h2 = Ok (At (TypeBlock T) 0 []) h2
    /\ TypeID_of c2 h2 = Ok (At (TypeBlock T) 0 []) h2.
Proof.
  intros tc T h.
  destruct (makeClassInfo tc (Some T) h) as [c1 h1| |] eqn:E1;
    [| rewrite makeClassInfo_eq in E1; discriminate ..].
  destruct (makeClassInfo tc (Some T) h1) as [c2 h2| |] eqn:E2;
    [| rewrite makeClassInfo_eq in E2; discriminate ..].
  exists c1, h1, c2, h2. split; [reflexivity |]. split; [exact E2 |]. split.
  - apply TypeID_of_preserved with (h := h1).
    + exact (makeClassInfo_TypeID _ _ _ _ _ E1).
    + exact (makeClassInfo_preserved _ _ _ _ _ E2).
  - exact (makeClassInfo_TypeID _ _ _ _ _ E2).
Qed.

(** The descriptors themselves are not shared: each call allocates a new
    one. *)
Lemma makeClassInfo_allocates (tc : toolchain) (T : type) (h h1 h2 : heap) c1 c2 :
  makeClassInfo tc (Some T) h = Ok c1 h1 ->
  makeClassInfo tc (Some T) h1 = Ok c2 h2 ->
  c1 <> c2.
Proof.
  rewrite !makeClassInfo_eq. intros [= <- <-] [= <- _] [= E].
  symmetry in E. revert E. apply fresh_block_ne.
  rewrite lookup_insert. case_decide; [eauto |].
  rewrite lookup_insert_eq. eauto.
Qed.

(** ** The object lifecycle *)

(** C2, as the code has it.  [Klass.Deinit] has an empty body: every call
    returns normally and leaves the heap as it was, so a second call on
    the same handle is a no-op and raises nothing. *)
Theorem Deinit_is_a_noop :
  forall (k : pointer) (h : heap),
    Klass_Deinit k h = Ok tt h
    /\ (Klass_Deinit k ;;; Klass_Deinit k) h = Ok tt h.
Proof. intros k h. split; reflexivity. Qed.

(** C2 fails as stated: on the handle of [New(nil, Dog, &Dog{Name: "Rex"})]
    the second [Deinit] returns, it does not panic. *)
Lemma Deinit_twice_does_not_fault :
  is_panic (Deinit_twice Go1_23 Dog rexPtr heap0) = false
  /\ (exists h, Deinit_twice Go1_23 Dog rexPtr heap0 = Ok tt h).
Proof. split; [reflexivity | eexists; reflexivity]. Qed.

(** ** Address extraction *)

Lemma load_Ok_heap (p : pointer) (w : value) (h h' : heap) :
  load p h = Ok w h' -> h' = h.
Proof.
  unfold load. destruct p as [| [n| |] off sel]; try discriminate.
  destruct off; try discriminate.
  destruct (h !! n) as [[t v| | |]|]; try discriminate.
  destruct (select sel v); [| discriminate]. now intros [= _ <-].
Qed.

(** C9, as the code has it.  [AsPtr] panics with reflect's [ValueError]
    on the nil interface and on every value whose kind [Value.Pointer] has
    no address for: every kind but Ptr, Chan, Map, UnsafePointer, Func,
    Slice and, from Go 1.23 on, String.  When it returns, the input is of
    one of those kinds and the heap is unchanged: no copy is made and no
    address of one is returned.  The result is the address word of the
    input (the data pointer of a slice or string), except for a function:
    there it is nil for the nil func, and otherwise the address of the
    code, read from the first word of the closure object that the func
    value points to. *)
Theorem AsPtr_panics_without_address :
  forall (tc : toolchain) (obj : any) (h : heap),
    (has_address tc (Value_Kind (ValueOf obj)) = false ->
     AsPtr tc obj h
     = Panics (ValueError "reflect.Value.Pointer" (Value_Kind (ValueOf obj))) h)
    /\ (forall p h', AsPtr tc obj h = Ok p h' ->
          has_address tc (Value_Kind (ValueOf obj)) = true
          /\ h' = h
          /\ exists t v,
               obj = Some (t, v)
               /\ (Kind_of t <> Func -> address_word v = Some p)
               /\ (Kind_of t = Func ->
                   exists c,
                     v = VPointer c
                     /\ (c = Nil -> p = Nil)
                     /\ (c <> Nil ->
                         load (field_ptr c 0) h = Ok (VUintptr p) h)))
    /\ (forall t, Kind_of t = Func ->
          AsPtr tc (Some (t, VPointer Nil)) h = Ok Nil h)
    /\ (forall t c fn,
          Kind_of t = Func -> c <> Nil ->
          load (field_ptr c 0) h = Ok (VUintptr fn) h ->
          AsPtr tc (Some (t, VPointer c)) h = Ok fn h).
Proof.
  intros tc obj h. unfold AsPtr, Value_Pointer.
  split; [| split; [| split]].
  - destruct obj as [[t v]|]; simpl; [| reflexivity].
    destruct (Kind_of t), tc; simpl; try discriminate; reflexivity.
  - intros p h'. destruct obj as [[t v]|]; simpl; [| discriminate].
    destruct (decide (Kind_of t = Func)) as [HF|HF].
    + rewrite HF. unfold bind, ret. simpl.
      destruct v as [| | | | | |c| | | |]; try discriminate.
      destruct c as [|b off sel].
      * intros [= <- <-]. split; [now destruct tc |]. split; [reflexivity |].
        exists t, (VPointer Nil). split; [reflexivity |].
        split; [contradiction |]. intros _. exists Nil.
        split; [reflexivity |]. split; [reflexivity | contradiction].
      * destruct (load (field_ptr (At b off sel) 0) h) as [w h1| |] eqn:EL;
          try discriminate.
        pose proof (load_Ok_heap _ _ _ _ EL) as ->.
        destruct w; try discriminate. intros [= <- <-].
        split; [now destruct tc |]. split; [reflexivity |].
        exists t, (VPointer (At b off sel)). split; [reflexivity |].
        split; [contradiction |]. intros _. exists (At b off sel).
        split; [reflexivity |]. split; [discriminate |]. intros _. exact EL.
    + destruct (Kind_of t) eqn:EK, tc; simpl; try discriminate;
        try contradiction;
        unfold bind, ret; simpl; destruct v; try discriminate;
        intros [= <- <-]; (split; [reflexivity |]); (split; [reflexivity |]);
        eexists _, _; (split; [reflexivity |]);
        (split; [intros _; reflexivity |]); congruence.
  - intros t HF. simpl. now rewrite HF.
  - intros t c fn HF Hc HL. simpl. rewrite HF. unfold bind, ret. simpl.
    destruct c as [|b off sel]; [contradiction |]. now rewrite HL.
Qed.

(** The theorem at [Dog{Name: "Rex"}]: a struct has no address word, and
    [AsPtr] panics on it; and at the function of [heap3]: the result is
    the address of its code, not the func value's own word, the address of
    the closure. *)
Lemma AsPtr_panics_on_Dog_value :
  has_address Go1_23 (Value_Kind (ValueOf (Some (Dog, rex)))) = false
  /\ AsPtr Go1_23 (Some (Dog, rex)) heap0
     = Panics (ValueError "reflect.Value.Pointer" Struct) heap0
  /\ bark = Some (TFunc "func() string", VPointer (At (HeapBlock 6) 0 []))
  /\ AsPtr Go1_23 bark heap3 = Ok (At (DataBlock 2) 0 []) heap3.
Proof.
  refine (conj eq_refl (conj _ (conj eq_refl _))).
  - exact (proj1 (AsPtr_panics_without_address Go1_23 (Some (Dog, rex)) heap0)
             eq_refl).
  - assert (Hc : At (HeapBlock 6) 0 [] <> Nil) by discriminate.
    exact (proj2 (proj2 (proj2 (AsPtr_panics_without_address Go1_23 None heap3)))
             (TFunc "func() string") (At (HeapBlock 6) 0 []) barkCode
             eq_refl Hc eq_refl).
Defined.

(** C9 fails as stated: an [unsafe.Pointer] and, from Go 1.23 on, a
    string are not of a reference-like kind, and [AsPtr] returns an
    address for them. *)
Lemma AsPtr_returns_for_unsafe_pointer_and_string :
  reference_like (Kind_of TUnsafePointer) = false
  /\ AsPtr Go1_22 (Some (TUnsafePointer, VPointer (At (HeapBlock 2) 0 []))) heap0
     = Ok (At (HeapBlock 2) 0 []) heap0
  /\ AsPtr Go1_23 (Some (TUnsafePointer, VPointer (At (HeapBlock 2) 0 []))) heap0
     = Ok (At (HeapBlock 2) 0 []) heap0
  /\ reference_like (Kind_of (TBasic BString)) = false
  /\ AsPtr Go1_23 (Some (TBasic BString, str 1 "Rex")) heap0
     = Ok (At (DataBlock 1) 0 []) heap0.
Proof. repeat split. Qed.

(** ** [Nil.Of] *)

(** A value boxed in [interface{}] never has an interface type as its
    dynamic type, so the kind test of [Nil.Of] fails for every argument
    that is not the nil interface. *)
Lemma Nil_Of_panics_unless_nil (t : type) (v : value) (h : heap) :
  Kind_of t <> Interface ->
  Nil_Of (Some (t, v)) h = Panics (PanicString "not an interface type") h.
Proof.
  intros Hk. unfold Nil_Of. simpl.
  case_bool_decide; [contradiction | reflexivity].
Qed.

Lemma Nil_Of_nil (h : heap) :
  Nil_Of None h = Ok (Some (TPtr (TBasic BInt), VPointer Nil)) h.
Proof. reflexivity. Qed.

(** C6 at a failing input.  [TestInterface] is an interface type, and for
    [var iface TestInterface = &TestStruct{Value: 42}] the call
    [Nil{}.Of(iface)] panics with "not an interface type". *)
Theorem Nil_Of_panics_on_interface_value :
  Kind_of TestInterface = Interface
  /\ to_any TestInterface iface = ts
  /\ Nil_Of (to_any TestInterface iface) heap0
     = Panics (PanicString "not an interface type") heap0.
Proof. repeat split. Qed.

(** ** Address recovery *)

(** [New] with an initializer adopts it as the owned value, whatever its
    type. *)
Lemma New_adopts_eq (tc : toolchain) (allocator : any) (it : type) (iv : value)
    (T : type) (h : heap) :
  New tc allocator (Some T) (Some (it, iv)) h
  = match makeClassInfo tc (Some T) h with
    | Ok info h1 =>
        Ok (At (HeapBlock (fresh_block h1)) 0 [])
           (<[fresh_block h1 :=
                OKlass {| Header := {| Info := info |};
                          Allocator := allocator;
                          Class := Some (it, iv) |}]> h1)
    | Panics e h1 => Panics e h1
    | Undefined => Undefined
    end.
Proof.
  unfold New. unfold bind at 1. rewrite makeClassInfo_eq. cbv zeta.
  unfold bind at 1, alloc at 1. unfold bind at 1.
  unfold set_Class, bind at 1, load_Klass at 1. rewrite lookup_insert_eq.
  unfold store_Klass. rewrite lookup_insert_eq. simpl.
  now rewrite insert_insert_eq.
Qed.

(** For a type named [TestStruct], [From] builds a new handle around the
    address it is given, typed as a pointer to that type. *)
Lemma From_TestStruct (tc : toolchain) (T : type) (b : block) (off : Z)
    (sel : list nat) (h : heap) :
  Name T = "TestStruct" ->
  exists k h',
    From tc (At b off sel) (Some T) h = Ok k h'
    /\ preserved h h'
    /\ exists info,
        load_Klass k h'
        = Ok {| Header := {| Info := info |}; Allocator := None;
                Class := Some (TPtr T, VPointer (At b off sel)) |} h'.
Proof.
  intros HN. unfold From. simpl. unfold bind at 1. simpl. rewrite HN. simpl.
  unfold bind at 1. simpl. unfold bind at 1. simpl.
  unfold bind at 1. simpl. unfold bind at 1. simpl.
  unfold bind at 1. rewrite makeClassInfo_eq. cbv zeta.
  unfold alloc. do 2 eexists. split; [reflexivity |]. split.
  - eapply preserved_trans; [| apply preserved_alloc].
    eapply preserved_trans; apply preserved_alloc.
  - eexists. unfold load_Klass. rewrite lookup_insert_eq. reflexivity.
Qed.

(** For a type with any other name, [From] displaces the address by the
    offset of [Klass.Class], 24, and reads a [Klass] there; for an address
    less than 24 bytes into its block, that is before the block. *)
Lemma From_displaces (tc : toolchain) (T : type) (p : pointer) (b : block)
    (d : Z) (h : heap) :
  Name T <> "TestStruct" ->
  uintptr_of p h = Ok (At b d []) h ->
  d < 24 ->
  From tc p (Some T) h = Undefined.
Proof.
  intros HN HU Hd. unfold From.
  destruct p as [|b' off sel]; [discriminate |]. cbn [is_Nil].
  unfold bind at 1, Type_Name, ret at 1.
  destruct (String.eqb_spec (Name T) "TestStruct") as [E|_]; [contradiction |].
  unfold bind at 1. rewrite HU.
  change (getClassOffset (Some T)) with 24. cbn [pointer_sub is_Nil].
  unfold bind, load_Klass.
  destruct b as [n| |]; try reflexivity.
  destruct (d - 24) eqn:E; try reflexivity. lia.
Qed.

(** C1 at a failing input.  For the handle of
    [New(nil, Dog, &Dog{Name: "Rex"})], [From(h.Ptr(), Dog)] subtracts the
    offset of [Klass.Class], 24, from the address of the [Dog] and reads a
    [Klass] there: outside the [Dog]'s block, where no [Klass] lives.  For
    the handle of [New(nil, TestStruct, &TestStruct{Value: 42})] the
    branch for the name [TestStruct] returns a handle owning the same
    pointer. *)
Theorem From_Ptr_Dog_reads_outside_the_object :
  getClassOffset (Some Dog) = 24
  /\ (forall tc h, exists k h',
        New tc None (Some Dog) rexPtr h = Ok k h'
        /\ Klass_Ptr tc k h' = Ok (At (HeapBlock 2) 0 []) h'
        /\ From tc (At (HeapBlock 2) 0 []) (Some Dog) h' = Undefined)
  /\ (forall tc, From_Ptr tc None Dog rexPtr heap0 = Undefined)
  /\ (forall tc, exists h, From_Ptr tc None TestStruct ts heap0 = Ok (ts, ts) h).
Proof.
  split; [reflexivity |]. split; [| split].
  - intros tc h.
    unfold rexPtr. rewrite New_adopts_eq, makeClassInfo_eq. cbv zeta.
    do 2 eexists. split; [reflexivity |]. split.
    + unfold Klass_Ptr, bind, load_Klass. rewrite lookup_insert_eq. reflexivity.
    + now apply (From_displaces tc Dog _ (HeapBlock 2) 0).
  - intros []; reflexivity.
  - intros []; eexists; reflexivity.
Qed.

(** ** Computations that keep the heap they start from *)

Lemma framed_ret {A} (a : A) : framed (ret a).
Proof. intros h. apply preserved_refl. Qed.

Lemma framed_throw {A} (e : panic) : framed (@throw A e).
Proof. intros h. apply preserved_refl. Qed.

Lemma framed_undefined {A} : framed (@undefined A).
Proof. intros h. exact I. Qed.

Lemma framed_bind {A B} (m : M A) (f : A -> M B) :
  framed m -> (forall a, framed (f a)) -> framed (bind m f).
Proof.
  intros Hm Hf h. unfold bind. specialize (Hm h).
  destruct (m h) as [a h1|e h1|]; simpl in *; auto.
  specialize (Hf a h1).
  destruct (f a h1) as [b h2|e h2|]; simpl in *; auto;
    eapply preserved_trans; eassumption.
Qed.

Lemma framed_load (p : pointer) : framed (load p).
Proof.
  intros h. unfold load.
  destruct p as [| [n| |] off sel]; simpl; try exact I; try apply preserved_refl.
  destruct off; try exact I.
  destruct (h !! n) as [[t v| | |]|]; try exact I.
  destruct (select sel v); [apply preserved_refl | exact I].
Qed.

Lemma framed_contents (v : Value) : framed (contents v).
Proof.
  destruct v; simpl; [apply framed_undefined | apply framed_ret | apply framed_load].
Qed.

Ltac framed_step :=
  first
    [ apply framed_ret | apply framed_throw | apply framed_undefined
    | apply framed_contents | apply framed_load
    | apply framed_bind; [| intros ?]
    | match goal with
      | |- framed (match ?x with _ => _ end) => destruct x
      end ].

Ltac framed_auto := repeat framed_step.

Lemma framed_Value_Type (v : Value) : framed (Value_Type v).
Proof. unfold Value_Type. framed_auto. Qed.

Lemma framed_Value_Elem (v : Value) : framed (Value_Elem v).
Proof. unfold Value_Elem. framed_auto. Qed.

Lemma framed_Value_Addr (v : Value) : framed (Value_Addr v).
Proof. unfold Value_Addr. framed_auto. Qed.

Lemma framed_Value_Interface (v : Value) : framed (Value_Interface v).
Proof. unfold Value_Interface. framed_auto. Qed.

Lemma framed_Value_Convert (v : Value) (t : type) : framed (Value_Convert v t).
Proof. unfold Value_Convert. framed_auto. Qed.

Lemma framed_Type_Implements (t : type) (u : option type) :
  framed (Type_Implements t u).
Proof. unfold Type_Implements. framed_auto. Qed.

Lemma framed_Type_AssignableTo (t : type) (u : option type) :
  framed (Type_AssignableTo t u).
Proof. unfold Type_AssignableTo. framed_auto. Qed.

(** [Value.Set] writes; on the variable of a block that was just
    allocated it leaves every other block as it was. *)
Lemma Value_Set_new_block (t : type) (z : value) (x : Value) (h : heap) :
  let b := fresh_block h in
  frames h (Value_Set (Var false t (At (HeapBlock b) 0 [])) x
              (<[b := OValue t z]> h)).
Proof.
  intros b.
  assert (Hst : forall w, frames h (store (At (HeapBlock b) 0 []) w
                                      (<[b := OValue t z]> h))).
  { intros w. unfold store. rewrite lookup_insert_eq. simpl.
    apply preserved_alloc_store. }
  assert (Hx : forall (f : value -> M unit),
             (forall w, frames h (f w (<[b := OValue t z]> h))) ->
             frames h (bind (contents x) f (<[b := OValue t z]> h))).
  { intros f Hf. unfold bind.
    pose proof (framed_contents x (<[b := OValue t z]> h)) as Hc.
    destruct (contents x (<[b := OValue t z]> h)) as [w h1|e h1|] eqn:E;
      simpl in *; auto.
    - assert (h1 = <[b := OValue t z]> h) as ->.
      { destruct x; simpl in E; unfold undefined, ret, load in E;
          try discriminate; try congruence.
        repeat case_match; congruence. }
      apply Hf.
    - eapply preserved_trans; [apply preserved_alloc | exact Hc]. }
  unfold Value_Set.
  destruct x as [|[] xt w|[] xt q]; simpl;
    try (apply (preserved_alloc h)).
  - destruct (directlyAssignable t xt); [apply Hx; intros; apply Hst |].
    destruct (implements t xt); [| apply (preserved_alloc h)].
    apply Hx. intros w'. destruct (Kind_of xt); apply Hst.
  - destruct (directlyAssignable t xt); [apply Hx; intros; apply Hst |].
    destruct (implements t xt); [| apply (preserved_alloc h)].
    apply Hx. intros w'. destruct (Kind_of xt); apply Hst.
Qed.

(** The copy that [Cast] and [As] make: a new variable, set to the
    source. *)
Lemma framed_new_copy {A} (typ : option type) (x : Value) (k : Value -> M A) :
  (forall nv, framed (k nv)) ->
  framed (n <- reflect_New typ ;;
          newValue <- Value_Elem n ;;
          Value_Set newValue x ;;;
          k newValue).
Proof.
  intros Hk h. destruct typ as [t|]; [| apply preserved_refl].
  set (V := Var false t (At (HeapBlock (fresh_block h)) 0 [])).
  set (h0 := <[fresh_block h := OValue t (zero t)]> h).
  change (frames h (bind (Value_Set V x) (fun _ => k V) h0)).
  pose proof (Value_Set_new_block t (zero t) x h) as HS.
  cbv zeta in HS. fold V h0 in HS. unfold bind.
  destruct (Value_Set V x h0) as [[] h1|e h1|]; simpl in *; auto.
  specialize (Hk V h1).
  destruct (k V h1) as [r h2|e h2|]; simpl in *; auto;
    eapply preserved_trans; eassumption.
Qed.

Ltac framed_go :=
  repeat first
    [ apply framed_Value_Type | apply framed_Value_Elem
    | apply framed_Value_Addr | apply framed_Value_Interface
    | apply framed_Value_Convert | apply framed_Type_Implements
    | apply framed_Type_AssignableTo
    | apply framed_new_copy; intros ?
    | framed_step ].

(** [Cast] keeps every block of the heap it starts from, whatever it is
    given and however it ends. *)
Lemma Cast_framed (obj : any) (targetType : option type) :
  framed (Cast obj targetType).
Proof. unfold Cast. framed_go. Qed.

Lemma As_framed (obj : any) (targetType : option type) :
  framed (As obj targetType).
Proof. unfold As. framed_go. Qed.

(** ** Writes through pointers *)

Lemma store_other (n : positive) (sel : list nat) (w : value) (h h' : heap) :
  store (At (HeapBlock n) 0 sel) w h = Ok tt h' ->
  forall m, m <> n -> h' !! m = h !! m.
Proof.
  unfold store. intros H m Hm.
  destruct (h !! n) as [[t v| | |]|]; try discriminate.
  destruct (replace sel v w); try discriminate.
  injection H as <-. now rewrite lookup_insert_ne.
Qed.

Lemma implements_interface (I T : type) :
  implements I T = true -> Kind_of I = Interface.
Proof. unfold implements. destruct (Kind_of I); congruence. Qed.

Lemma directlyAssignable_refl (T : type) : directlyAssignable T T = true.
Proof.
  unfold directlyAssignable. now rewrite bool_decide_eq_true_2.
Qed.

(** The third rule of [Cast]: a value that is not a pointer, whose type
    does not implement the target while the pointer to its type does, is
    copied into a new variable, and the pointer to that variable is the
    result. *)
Lemma Cast_copy_eq (T : type) (v : value) (I : type) (h : heap) :
  Kind_of T <> Ptr ->
  implements I T = false ->
  implements I (PtrTo T) = true ->
  Cast (Some (T, v)) (Some I) h
  = Ok (Some (PtrTo T, VPointer (At (HeapBlock (fresh_block h)) 0 [])))
       (<[fresh_block h := OValue T v]> h).
Proof.
  intros HT H1 H3. pose proof (implements_interface _ _ H3) as HI.
  assert (Hstep : forall (B : Type) (a : B) (f : B -> M any) (h0 : heap),
             bind (ret a) f h0 = f a h0) by reflexivity.
  unfold Cast, ValueOf, Value_Type, Value_Kind, Type_Implements.
  rewrite Hstep, HI, Hstep, H1.
  assert (HK : Kind_of (PtrTo T) = Ptr) by reflexivity.
  destruct (Kind_of T) eqn:EK; try congruence;
    unfold reflect_New, alloc, Value_Elem, Value_Set, contents,
      Value_CanAddr, Value_Addr, Value_Interface, bind, ret;
    rewrite H3; simpl; rewrite directlyAssignable_refl; unfold store, bind, ret;
    rewrite lookup_insert_eq; simpl;
    now rewrite insert_insert_eq.
Qed.

(** C3.  [Cast] never writes to a block of the heap it starts from.  Under
    its third rule (the input is not a pointer, its type does not
    implement the target, the pointer to its type does) the result points
    to a block that did not exist before the call and holds a copy of the
    input: a write through the result changes no block that existed
    before, and a write to a block that existed before does not change the
    copy. *)
Theorem Cast_never_mutates_and_copy_is_independent :
  (forall obj targetType h, frames h (Cast obj targetType h))
  /\ (forall T v I h,
        Kind_of T <> Ptr ->
        implements I T = false ->
        implements I (PtrTo T) = true ->
        let b := fresh_block h in
        let h' := <[b := OValue T v]> h in
        h !! b = None
        /\ Cast (Some (T, v)) (Some I) h
           = Ok (Some (PtrTo T, VPointer (At (HeapBlock b) 0 []))) h'
        /\ load (At (HeapBlock b) 0 []) h' = Ok v h'
        /\ (forall sel w h'',
              store (At (HeapBlock b) 0 sel) w h' = Ok tt h'' ->
              preserved h h'')
        /\ (forall m sel w h'',
              is_Some (h !! m) ->
              store (At (HeapBlock m) 0 sel) w h' = Ok tt h'' ->
              h'' !! b = Some (OValue T v))).
Proof.
  split; [intros obj targetType; apply Cast_framed |].
  intros T v I h HT H1 H3 b h'.
  split; [apply fresh_block_None |].
  split; [now apply Cast_copy_eq |].
  split; [unfold load, h'; now rewrite lookup_insert_eq |].
  split.
  - intros sel w h'' Hst n o Hn.
    rewrite (store_other _ _ _ _ _ Hst).
    + unfold h'. rewrite lookup_insert_ne; [exact Hn |].
      apply fresh_block_ne. eauto.
    + intros ->. unfold b in Hn. rewrite fresh_block_None in Hn. discriminate.
  - intros m sel w h'' Hm Hst.
    rewrite (store_other _ _ _ _ _ Hst).
    + unfold h'. apply lookup_insert_eq.
    + apply fresh_block_ne, Hm.
Qed.

(** The value case of [TestCast]: hypotheses and conclusion of the third
    rule at [TestStruct{Value: 84}] and [TestInterface]. *)
Lemma Cast_copy_TestStruct :
  Kind_of TestStruct <> Ptr
  /\ implements TestInterface TestStruct = false
  /\ implements TestInterface (PtrTo TestStruct) = true
  /\ Cast (Some (TestStruct, VStruct [VInt 84])) (Some TestInterface) heap0
     = Ok (Some (PtrTo TestStruct,
                 VPointer (At (HeapBlock (fresh_block heap0)) 0 [])))
          (<[fresh_block heap0 := OValue TestStruct (VStruct [VInt 84])]> heap0).
Proof.
  assert (H0 : Kind_of TestStruct <> Ptr) by discriminate.
  assert (H1 : implements TestInterface TestStruct = false) by reflexivity.
  assert (H3 : implements TestInterface (PtrTo TestStruct) = true) by reflexivity.
  refine (conj H0 (conj H1 (conj H3 _))).
  exact (proj1 (proj2 (proj2 Cast_never_mutates_and_copy_is_independent
                         TestStruct (VStruct [VInt 84]) TestInterface heap0
                         H0 H1 H3))).
Defined.

(** ** [As] *)

Lemma bind_assoc {A B C} (m : M A) (f : A -> M B) (g : B -> M C) (h : heap) :
  bind (bind m f) g h = bind m (fun x => bind (f x) g) h.
Proof. unfold bind. destruct (m h); reflexivity. Qed.

Lemma implements_concrete (U t : type) :
  Kind_of U <> Interface -> implements U t = false.
Proof. unfold implements. destruct (Kind_of U); congruence. Qed.

Lemma haveIdenticalUnderlyingType_refl (t : type) :
  haveIdenticalUnderlyingType t t = true.
Proof. unfold haveIdenticalUnderlyingType. now rewrite bool_decide_eq_true_2. Qed.

(** Converting a [*t] to [*U]: allowed exactly when [U] and [t] have
    identical underlying types. *)
Lemma Convert_pointer (t U : type) (p : pointer) (h : heap) :
  Value_Convert (Val false (PtrTo t) (VPointer p)) (PtrTo U) h
  = if haveIdenticalUnderlyingType U t
    then Ok (Val false (PtrTo U) (VPointer p)) h
    else Panics (NotConvertible (PtrTo t) (PtrTo U)) h.
Proof.
  unfold Value_Convert.
  destruct (decide (U = t)) as [->|Hne].
  - now rewrite !haveIdenticalUnderlyingType_refl.
  - assert (H1 : haveIdenticalUnderlyingType (PtrTo U) (PtrTo t) = false).
    { unfold haveIdenticalUnderlyingType, PtrTo. simpl.
      rewrite !bool_decide_eq_false_2 by congruence.
      reflexivity. }
    rewrite H1. simpl.
    destruct (haveIdenticalUnderlyingType U t); reflexivity.
Qed.

Lemma As_tail_eq (t U : type) (V : Value) (p : pointer) (h : heap) :
  Kind_of U <> Interface ->
  Value_Addr V h = Ok (Val false (PtrTo t) (VPointer p)) h ->
  (a <- Value_Addr V ;;
   c <- Value_Convert a (PtrTo U) ;;
   Value_Interface c) h
  = if haveIdenticalUnderlyingType U t
    then Ok (Some (PtrTo U, VPointer p)) h
    else Panics (NotConvertible (PtrTo t) (PtrTo U)) h.
Proof.
  intros HU HA. unfold bind at 1. rewrite HA.
  unfold bind at 1. rewrite Convert_pointer.
  destruct (haveIdenticalUnderlyingType U t); reflexivity.
Qed.

(** C8, as the code has it.  Let the input have a type to test: it is not
    the nil interface and not a nil pointer, and [t] is its type, or the
    type of its referent when it is a pointer.  For a target [U] that is
    not an interface type, [As] returns nil when [t] is not assignable to
    [U]; when it is and the two have identical underlying types, [As]
    returns a non-nil [*U]: the pointer it was given, or the address of a
    new block holding a copy of the value it was given; when it is and
    the underlying types differ (a bidirectional channel assigned to a
    directional channel type), [As] panics in [Value.Convert]. *)
Theorem As_concrete_target :
  forall (obj : any) (t U : type) (h : heap),
    deref_type obj = Some t ->
    Kind_of U <> Interface ->
    (directlyAssignable U t = false -> As obj (Some U) h = Ok None h)
    /\ (directlyAssignable U t = true ->
        haveIdenticalUnderlyingType U t = true ->
        As obj (Some U) h
        = Ok (Some (PtrTo U, VPointer (fst (As_referent obj h))))
             (snd (As_referent obj h))
        /\ is_Nil (fst (As_referent obj h)) = false
        /\ preserved h (snd (As_referent obj h)))
    /\ (directlyAssignable U t = true ->
        haveIdenticalUnderlyingType U t = false ->
        As obj (Some U) h
        = Panics (NotConvertible (PtrTo t) (PtrTo U)) (snd (As_referent obj h))).
Proof.
  intros obj t U h Hd HU.
  pose proof (implements_concrete U t HU) as HI.
  destruct obj as [[ot ov]|]; [| discriminate].
  unfold deref_type in Hd.
  assert (Hstep : forall (B : Type) (a : B) (f : B -> M any) (h0 : heap),
             bind (ret a) f h0 = f a h0) by reflexivity.
  destruct (decide (Kind_of ot = Ptr)) as [HP|HP].
  - (* a pointer: the referent is used in place *)
    rewrite HP in Hd.
    destruct ov as [| | | | | |p| | | |]; try discriminate.
    destruct p as [|b off sel]; [discriminate |].
    assert (HE : As (Some (ot, VPointer (At b off sel))) (Some U) h
                 = (assignable <- Type_AssignableTo t (Some U) ;;
                    if assignable then
                      a <- Value_Addr (Var false t (At b off sel)) ;;
                      c <- Value_Convert a (PtrTo U) ;;
                      Value_Interface c
                    else ret None) h).
    { unfold As, ValueOf, Value_Kind. rewrite HP.
      unfold Value_Elem at 1. rewrite HP. unfold contents at 1.
      rewrite bind_assoc, Hstep, Hd. reflexivity. }
    rewrite HE. unfold Type_AssignableTo. rewrite Hstep, HI, orb_false_r.
    unfold As_referent. rewrite HP. simpl fst. simpl snd.
    split; [| split].
    + intros ->. reflexivity.
    + intros -> Hu. split; [| split; [reflexivity | apply preserved_refl]].
      rewrite (As_tail_eq t U _ (At b off sel) h HU) by reflexivity.
      now rewrite Hu.
    + intros -> Hu.
      rewrite (As_tail_eq t U _ (At b off sel) h HU) by reflexivity.
      now rewrite Hu.
  - (* a value: it is copied into a new variable *)
    assert (t = ot) as ->.
    { destruct (Kind_of ot); congruence. }
    set (b := fresh_block h). set (h1 := <[b := OValue ot ov]> h).
    assert (HR : As_referent (Some (ot, ov)) h = (At (HeapBlock b) 0 [], h1)).
    { unfold As_referent. destruct (Kind_of ot); try reflexivity. congruence. }
    assert (HE : As (Some (ot, ov)) (Some U) h
                 = (assignable <- Type_AssignableTo ot (Some U) ;;
                    if assignable then
                      objValue <- (n <- reflect_New (Some ot) ;;
                                   newValue <- Value_Elem n ;;
                                   Value_Set newValue (Val false ot ov) ;;;
                                   ret newValue) ;;
                      a <- Value_Addr objValue ;;
                      c <- Value_Convert a (PtrTo U) ;;
                      Value_Interface c
                    else ret None) h).
    { unfold As, ValueOf, Value_Kind.
      destruct (Kind_of ot); try congruence; reflexivity. }
    assert (HC : forall (k : Value -> M any),
               (objValue <- (n <- reflect_New (Some ot) ;;
                             newValue <- Value_Elem n ;;
                             Value_Set newValue (Val false ot ov) ;;;
                             ret newValue) ;;
                k objValue) h
               = k (Var false ot (At (HeapBlock b) 0 [])) h1).
    { intros k.
      unfold reflect_New, alloc, Value_Elem, Value_Set, contents, bind, ret.
      simpl. rewrite directlyAssignable_refl. unfold store, bind, ret.
      fold b. rewrite lookup_insert_eq. simpl. rewrite insert_insert_eq.
      reflexivity. }
    rewrite HE, HR. unfold Type_AssignableTo. rewrite Hstep, HI, orb_false_r.
    simpl fst. simpl snd.
    split; [| split].
    + intros ->. reflexivity.
    + intros -> Hu. split; [| split; [reflexivity | apply preserved_alloc]].
      rewrite HC.
      rewrite (As_tail_eq ot U _ (At (HeapBlock b) 0 []) h1 HU) by reflexivity.
      now rewrite Hu.
    + intros -> Hu. rewrite HC.
      rewrite (As_tail_eq ot U _ (At (HeapBlock b) 0 []) h1 HU) by reflexivity.
      now rewrite Hu.
Qed.

(** C8 fails as stated: [As] panics on a nil pointer, whatever the
    target, and it panics for a bidirectional channel and a receive-only
    channel type, although the first is assignable to the second. *)
Lemma As_panics_on_nil_pointer_and_channel :
  As nilDog (Some Dog) heap0
  = Panics (ValueError "reflect.Value.Type" Invalid) heap0
  /\ As nilDog (Some Cat) heap0
     = Panics (ValueError "reflect.Value.Type" Invalid) heap0
  /\ deref_type chanInt = Some (TChan BothDir (TBasic BInt))
  /\ directlyAssignable recvChanInt (TChan BothDir (TBasic BInt)) = true
  /\ is_panic (As chanInt (Some recvChanInt) heap0) = true.
Proof. repeat split. Qed.

(** The scenario of the specification: a [Dog] value cast to [Cat] gives
    nil, and cast to [Dog] gives a pointer to a copy of the [Dog]. *)
Lemma As_Dog_scenario :
  deref_type (Some (Dog, rex)) = Some Dog
  /\ Kind_of Cat <> Interface
  /\ Kind_of Dog <> Interface
  /\ As (Some (Dog, rex)) (Some Cat) heap0 = Ok None heap0
  /\ As (Some (Dog, rex)) (Some Dog) heap0
     = Ok (Some (PtrTo Dog, VPointer (At (HeapBlock (fresh_block heap0)) 0 [])))
          (<[fresh_block heap0 := OValue Dog rex]> heap0)
  /\ load (At (HeapBlock (fresh_block heap0)) 0 [])
          (<[fresh_block heap0 := OValue Dog rex]> heap0)
     = Ok rex (<[fresh_block heap0 := OValue Dog rex]> heap0).
Proof.
  assert (Hd : deref_type (Some (Dog, rex)) = Some Dog) by reflexivity.
  assert (HC : Kind_of Cat <> Interface) by discriminate.
  assert (HD : Kind_of Dog <> Interface) by discriminate.
  refine (conj Hd (conj HC (conj HD (conj _ (conj _ _))))).
  - exact (proj1 (As_concrete_target _ Dog Cat heap0 Hd HC) eq_refl).
  - exact (proj1 (proj1 (proj2 (As_concrete_target _ Dog Dog heap0 Hd HD))
                    eq_refl eq_refl)).
  - unfold load. rewrite lookup_insert_eq. reflexivity.
Defined.

End Props.

(** * Further properties of the handle operations *)

Module HandleProps.
Import GoType Mem Run Reflect Oop Friendly Spec Fixtures Props.
#[local] Open Scope go_scope.

(** ** [initClass] *)

Lemma fields_nth_lt (fs : fields) (i : nat) :
  (i < fields_length fs)%nat -> exists f, fields_nth fs i = Some f.
Proof.
  revert i. induction fs as [|n t rest IH]; simpl; intros i Hi; [lia |].
  destruct i; [eauto |]. apply IH. lia.
Qed.

Lemma zero_struct (T : type) :
  Kind_of T = Struct -> zero T = VStruct (zero_fields (struct_fields T)).
Proof.
  unfold struct_fields. rewrite <- Kind_of_underlying, <- zero_underlying.
  unfold Kind_of. rewrite underlying_idem.
  destruct (underlying T) as [[]| | | | | | | | | |]; simpl; auto; discriminate.
Qed.


(** One round of the loop: the field is replaced by its cleared value. *)
Lemma initClass_body_eq (T T0 : type) (n : positive) (ws : list value)
    (i : nat) (f : string * type) (w : value) (h : heap) :
  Kind_of T = Struct ->
  fields_nth (struct_fields T) i = Some f ->
  ws !! i = Some w ->
  h !! n = Some (OValue T0 (VStruct ws)) ->
  initClass_body (Var false T (At (HeapBlock n) 0 [])) i h
  = Ok tt (<[n := OValue T0 (VStruct (<[i := cleared f w]> ws))]> h).
Proof.
  intros HS Hf Hw Hh. destruct f as [nm ft].
  assert (Hid : h = <[n := OValue T0 (VStruct (<[i := w]> ws))]> h).
  { rewrite list_insert_id by exact Hw. now rewrite insert_id. }
  unfold initClass_body, Value_Field. simpl. rewrite HS, Hf.
  unfold bind at 1. simpl. unfold cleared. simpl.
  destruct (is_exported nm); simpl; [| exact (f_equal (Ok tt) Hid)].
  unfold Value_IsZero, contents, load, bind. rewrite Hh. simpl. rewrite Hw.
  simpl. destruct (isZero ft w); [| exact (f_equal (Ok tt) Hid)].
  simpl. rewrite directlyAssignable_refl. unfold ret, store. rewrite Hh.
  simpl. rewrite Hw. reflexivity.
Qed.

(** The loop from field [i] on, [k] fields to go. *)
Lemma initClass_loop (T T0 : type) (n : positive) (k : nat) :
  Kind_of T = Struct ->
  forall (i : nat) (ws : list value) (h : heap),
    (i + k = fields_length (struct_fields T))%nat ->
    length ws = fields_length (struct_fields T) ->
    h !! n = Some (OValue T0 (VStruct ws)) ->
    exists ws',
      for_range i k (initClass_body (Var false T (At (HeapBlock n) 0 []))) h
      = Ok tt (<[n := OValue T0 (VStruct ws')]> h)
      /\ length ws' = length ws
      /\ (forall j, (j < i)%nat -> ws' !! j = ws !! j)
      /\ (forall j f w, (i <= j)%nat ->
            fields_nth (struct_fields T) j = Some f ->
            ws !! j = Some w ->
            ws' !! j = Some (cleared f w)).
Proof.
  intros HS. induction k as [|k IH]; intros i ws h Hik Hlen Hh.
  - exists ws. simpl. unfold ret. rewrite insert_id by exact Hh.
    repeat split; auto.
    intros j f w Hj Hf Hw. apply lookup_lt_Some in Hw. lia.
  - destruct (fields_nth_lt (struct_fields T) i ltac:(lia)) as [f Hf].
    destruct (lookup_lt_is_Some_2 ws i ltac:(lia)) as [w Hw].
    set (ws1 := <[i := cleared f w]> ws).
    set (h1 := <[n := OValue T0 (VStruct ws1)]> h).
    assert (Hlen1 : length ws1 = fields_length (struct_fields T)).
    { unfold ws1. now rewrite length_insert. }
    destruct (IH (S i) ws1 h1 ltac:(lia) Hlen1) as (ws' & HE & HL & Hlo & Hhi).
    { unfold h1. apply lookup_insert_eq. }
    exists ws'. split; [| split; [| split]].
    + simpl. unfold bind.
      rewrite (initClass_body_eq T T0 n ws i f w h HS Hf Hw Hh).
      fold ws1 h1. rewrite HE. unfold h1. now rewrite insert_insert_eq.
    + rewrite HL. unfold ws1. apply length_insert.
    + intros j Hj. rewrite Hlo by lia. unfold ws1.
      apply list_lookup_insert_ne. lia.
    + intros j g u Hj Hg Hu. destruct (decide (j = i)) as [->|Hne].
      * rewrite Hlo by lia. unfold ws1.
        rewrite list_lookup_insert_eq by (apply lookup_lt_Some in Hw; lia).
        congruence.
      * apply (Hhi j g u); [lia | exact Hg |].
        unfold ws1. rewrite list_lookup_insert_ne by lia. exact Hu.
Qed.

Lemma initClass_struct_run (pt T T0 : type) (n : positive) (vs : list value)
    (h : heap) :
  Kind_of pt = Ptr ->
  Elem pt = Some T ->
  Kind_of T = Struct ->
  h !! n = Some (OValue T0 (VStruct vs)) ->
  length vs = fields_length (struct_fields T) ->
  exists vs',
    initClass (Some (pt, VPointer (At (HeapBlock n) 0 []))) h
    = Ok tt (<[n := OValue T0 (VStruct vs')]> h)
    /\ length vs' = length vs
    /\ (forall j f w,
          fields_nth (struct_fields T) j = Some f ->
          vs !! j = Some w ->
          vs' !! j = Some (cleared f w)).
Proof.
  intros HP HE HS Hh Hlen.
  destruct (initClass_loop T T0 n (fields_length (struct_fields T)) HS
              0%nat vs h eq_refl Hlen Hh) as (vs' & Hrun & HL & _ & Hhi).
  exists vs'. split; [| split; [exact HL |]].
  - unfold initClass, ValueOf, Value_Kind. rewrite HP.
    unfold Value_Elem. rewrite HP. unfold contents.
    unfold bind at 1. unfold bind at 1. unfold ret at 1. rewrite HE.
    unfold ret at 1. rewrite HS. unfold Value_NumField. rewrite HS.
    unfold bind at 1, ret at 1. exact Hrun.
  - intros j f w Hf Hw. apply (Hhi j f w); [lia | exact Hf | exact Hw].
Qed.

Lemma initClass_pointer_to_other (pt T : type) (b : block) (off : Z)
    (sel : list nat) (h : heap) :
  Kind_of pt = Ptr -> Elem pt = Some T -> Kind_of T <> Struct ->
  initClass (Some (pt, VPointer (At b off sel))) h = Ok tt h.
Proof.
  intros HP HE HS. unfold initClass, ValueOf, Value_Kind.
  rewrite HP. unfold Value_Elem. rewrite HP. unfold contents.
  unfold bind at 1. unfold bind at 1. unfold ret at 1. rewrite HE.
  unfold ret at 1. destruct (Kind_of T); try congruence; reflexivity.
Qed.



(** A struct held by value has no settable field: the loop runs and
    writes nothing. *)
Lemma initClass_loop_value (t : type) (ws : list value) (k : nat) (h : heap) :
  Kind_of t = Struct ->
  forall i,
    (i + k <= fields_length (struct_fields t))%nat ->
    (i + k <= length ws)%nat ->
    for_range i k (initClass_body (Val false t (VStruct ws))) h = Ok tt h.
Proof.
  intros HS. induction k as [|k IH]; intros i Hf Hw; [reflexivity |].
  destruct (fields_nth_lt (struct_fields t) i ltac:(lia)) as [[nm ft] Hn].
  destruct (lookup_lt_is_Some_2 ws i ltac:(lia)) as [w Hi].
  simpl. unfold bind at 1.
  assert (HB : initClass_body (Val false t (VStruct ws)) i h = Ok tt h).
  { unfold initClass_body, Value_Field. simpl. rewrite HS, Hn, Hi. reflexivity. }
  rewrite HB. apply IH; lia.
Qed.

(** When [initClass] does nothing: for the nil interface, for a value
    that is neither a pointer nor a struct, for a nil pointer, for a
    pointer to anything but a struct (the referent is not read), and for a
    struct passed by value.  In each case it returns with the heap as it
    was. *)
Theorem initClass_writes_only_through_struct_pointers :
  (forall h, initClass None h = Ok tt h)
  /\ (forall t v h,
        Kind_of t <> Ptr -> Kind_of t <> Struct ->
        initClass (Some (t, v)) h = Ok tt h)
  /\ (forall t h,
        Kind_of t = Ptr -> initClass (Some (t, VPointer Nil)) h = Ok tt h)
  /\ (forall pt T b off sel h,
        Kind_of pt = Ptr -> Elem pt = Some T -> Kind_of T <> Struct ->
        initClass (Some (pt, VPointer (At b off sel))) h = Ok tt h)
  /\ (forall t ws h,
        Kind_of t = Struct ->
        length ws = fields_length (struct_fields t) ->
        initClass (Some (t, VStruct ws)) h = Ok tt h).
Proof.
  split; [reflexivity |]. split; [| split; [| split]].
  - intros t v h HP HS. unfold initClass, ValueOf, Value_Kind.
    destruct (Kind_of t) eqn:E; try congruence;
      unfold bind, ret; simpl; rewrite E; reflexivity.
  - intros t h HP. unfold initClass, ValueOf, Value_Kind. rewrite HP.
    unfold Value_Elem. rewrite HP. reflexivity.
  - intros pt T b off sel h. apply initClass_pointer_to_other.
  - intros t ws h HS Hlen. unfold initClass, ValueOf, Value_Kind. rewrite HS.
    unfold bind at 1, ret at 1. rewrite HS.
    unfold Value_NumField. rewrite HS. unfold bind at 1, ret at 1.
    apply (initClass_loop_value t ws _ h HS 0%nat); lia.
Qed.

(** On a variable that holds the zero value of its type, [initClass]
    changes nothing. *)
Lemma initClass_zero (pt T T0 : type) (n : positive) (h : heap) :
  Kind_of pt = Ptr ->
  Elem pt = Some T ->
  h !! n = Some (OValue T0 (zero T)) ->
  initClass (Some (pt, VPointer (At (HeapBlock n) 0 []))) h = Ok tt h.
Proof.
  intros HP HE Hh. destruct (decide (Kind_of T = Struct)) as [HS|HS].
  - rewrite (zero_struct T HS) in Hh.
    destruct (initClass_struct_run pt T T0 n _ h HP HE HS Hh
                (zero_fields_length _)) as (vs' & Hrun & HL & Hpt).
    rewrite Hrun. f_equal.
    assert (vs' = zero_fields (struct_fields T)) as ->; [| now apply insert_id].
    apply list_eq. intros j.
    destruct (zero_fields (struct_fields T) !! j) as [w|] eqn:Ew.
    + pose proof Ew as Hlt. apply lookup_lt_Some in Hlt.
      rewrite zero_fields_length in Hlt.
      destruct (fields_nth_lt _ _ Hlt) as [f Hf].
      rewrite (Hpt j f w Hf Ew).
      rewrite (fields_nth_zero _ _ _ Hf) in Ew. injection Ew as <-.
      unfold cleared. now destruct (_ && _).
    + apply lookup_ge_None. rewrite HL. now apply lookup_ge_None.
  - now apply (initClass_pointer_to_other pt T).
Qed.

(** ** [New] *)

Lemma bind_Ok {A B} (m : M A) (f : A -> M B) (h : heap) (a : A) (h' : heap) :
  m h = Ok a h' -> bind m f h = f a h'.
Proof. intros E. unfold bind. now rewrite E. Qed.

(** With an initializer, [New] adopts it as the owned value without
    comparing its type with the class type; the handle is a new block, it
    records the allocator and a descriptor of the class type, and no block
    that existed is changed. *)
Theorem New_adopts_initializer :
  forall (tc : toolchain) (allocator : any) (T it : type) (iv : value) (h : heap),
  exists (m : positive) (info : pointer) (h' : heap),
    New tc allocator (Some T) (Some (it, iv)) h = Ok (At (HeapBlock m) 0 []) h'
    /\ h !! m = None
    /\ load_Klass (At (HeapBlock m) 0 []) h'
       = Ok {| Header := {| Info := info |}; Allocator := allocator;
               Class := Some (it, iv) |} h'
    /\ TypeID_of info h' = Ok (At (TypeBlock T) 0 []) h'
    /\ preserved h h'.
Proof.
  intros tc allocator T it iv h.
  rewrite New_adopts_eq.
  destruct (makeClassInfo tc (Some T) h) as [info h1| |] eqn:E;
    [| rewrite makeClassInfo_eq in E; discriminate ..].
  pose proof (makeClassInfo_preserved _ _ _ _ _ E) as HP.
  pose proof (makeClassInfo_TypeID _ _ _ _ _ E) as HT.
  exists (fresh_block h1), info. eexists. split; [reflexivity |].
  split; [| split; [| split]].
  - destruct (h !! fresh_block h1) eqn:Em; [| reflexivity].
    apply HP in Em. rewrite fresh_block_None in Em. discriminate.
  - unfold load_Klass. now rewrite lookup_insert_eq.
  - apply TypeID_of_preserved with (h := h1); [exact HT | apply preserved_alloc].
  - eapply preserved_trans; [exact HP | apply preserved_alloc].
Qed.

(** Without an initializer, [New] allocates a variable of the class type
    and owns a pointer to it; after [initClass] the variable still holds
    the zero value of the type.  The variable and the handle are new
    blocks and no block that existed is changed. *)
Theorem New_owns_zero_value :
  forall (tc : toolchain) (allocator : any) (T : type) (h : heap),
  exists (m n : positive) (info : pointer) (h' : heap),
    New tc allocator (Some T) None h = Ok (At (HeapBlock m) 0 []) h'
    /\ h !! m = None /\ h !! n = None /\ m <> n
    /\ load_Klass (At (HeapBlock m) 0 []) h'
       = Ok {| Header := {| Info := info |}; Allocator := allocator;
               Class := Some (PtrTo T, VPointer (At (HeapBlock n) 0 [])) |} h'
    /\ load (At (HeapBlock n) 0 []) h' = Ok (zero T) h'
    /\ TypeID_of info h' = Ok (At (TypeBlock T) 0 []) h'
    /\ preserved h h'.
Proof.
  intros tc allocator T h.
  destruct (makeClassInfo tc (Some T) h) as [info h1| |] eqn:E;
    [| rewrite makeClassInfo_eq in E; discriminate ..].
  pose proof (makeClassInfo_preserved _ _ _ _ _ E) as HP.
  pose proof (makeClassInfo_TypeID _ _ _ _ _ E) as HT.
  set (m := fresh_block h1).
  set (K0 := {| Header := {| Info := info |}; Allocator := allocator;
                Class := None |}).
  set (h2 := <[m := OKlass K0]> h1).
  set (n := fresh_block h2).
  set (h3 := <[n := OValue T (zero T)]> h2).
  set (K1 := {| Header := {| Info := info |}; Allocator := allocator;
                Class := Some (PtrTo T, VPointer (At (HeapBlock n) 0 [])) |}).
  set (h4 := <[m := OKlass K1]> h3).
  assert (Hnm : n <> m).
  { apply fresh_block_ne. unfold h2. rewrite lookup_insert_eq. eauto. }
  assert (H3m : h3 !! m = Some (OKlass K0)).
  { unfold h3. rewrite lookup_insert_ne by exact Hnm.
    unfold h2. apply lookup_insert_eq. }
  assert (H4n : h4 !! n = Some (OValue T (zero T))).
  { unfold h4. rewrite lookup_insert_ne by congruence.
    unfold h3. apply lookup_insert_eq. }
  assert (H12 : preserved h1 h2) by apply preserved_alloc.
  assert (H23 : preserved h2 h3) by apply preserved_alloc.
  assert (H14 : preserved h1 h4).
  { intros j o Hj. unfold h4. rewrite lookup_insert_ne.
    - apply H23, H12, Hj.
    - intros <-. unfold m in Hj. rewrite fresh_block_None in Hj. discriminate. }
  assert (Hrun : New tc allocator (Some T) None h = Ok (At (HeapBlock m) 0 []) h4).
  { assert (H4m : h4 !! m = Some (OKlass K1))
      by (unfold h4; apply lookup_insert_eq).
    assert (HsetC : set_Class (At (HeapBlock m) 0 [])
                      (Some (PtrTo T, VPointer (At (HeapBlock n) 0 []))) h3
                    = Ok tt h4).
    { unfold set_Class, bind, load_Klass, store_Klass. rewrite H3m. simpl.
      rewrite H3m. reflexivity. }
    assert (Hload : load_Klass (At (HeapBlock m) 0 []) h4 = Ok K1 h4).
    { unfold load_Klass. now rewrite H4m. }
    unfold New.
    rewrite (bind_Ok _ _ _ _ _ E).
    rewrite (bind_Ok _ _ h1 (At (HeapBlock m) 0 []) h2) by reflexivity.
    erewrite bind_Ok; [reflexivity |].
    rewrite (bind_Ok _ _ h2 (Val false (PtrTo T) (VPointer (At (HeapBlock n) 0 []))) h3)
      by reflexivity.
    rewrite (bind_Ok _ _ h3 (Some (PtrTo T, VPointer (At (HeapBlock n) 0 []))) h3)
      by reflexivity.
    rewrite (bind_Ok _ _ _ _ _ HsetC).
    rewrite (bind_Ok _ _ _ _ _ Hload).
    exact (initClass_zero (PtrTo T) T T n h4 eq_refl eq_refl H4n). }
  exists m, n, info, h4. split; [exact Hrun |].
  split; [| split; [| split; [congruence |]]].
  - destruct (h !! m) eqn:Em; [| reflexivity].
    apply HP in Em. unfold m in Em. rewrite fresh_block_None in Em. discriminate.
  - destruct (h !! n) eqn:En; [| reflexivity].
    apply HP, H12 in En. unfold n in En. rewrite fresh_block_None in En.
    discriminate.
  - split; [unfold load_Klass, h4; now rewrite lookup_insert_eq |].
    split; [unfold load; now rewrite H4n |].
    split; [apply TypeID_of_preserved with (h := h1); assumption |].
    eapply preserved_trans; eassumption.
Qed.

(** ** [makeClassInfo] *)

(** Descriptors are not shared: two calls for the same type return
    pointers to two different [ClassInfo] blocks, each with its own
    [TypeInfo]; both record the type's name, offset 0 and no vtable.  For
    the nil [reflect.Type] the call panics on [classType.Name()]. *)
Theorem makeClassInfo_allocates_each_time :
  (forall (tc : toolchain) (T : type) (h : heap),
   exists c1 h1 c2 h2 ci1 ci2,
     makeClassInfo tc (Some T) h = Ok c1 h1
     /\ makeClassInfo tc (Some T) h1 = Ok c2 h2
     /\ c1 <> c2
     /\ load_ClassInfo c1 h2 = Ok ci1 h2
     /\ load_ClassInfo c2 h2 = Ok ci2 h2
     /\ TypeInfo_ ci1 <> TypeInfo_ ci2
     /\ Offset ci1 = 0 /\ Offset ci2 = 0
     /\ Vtables ci1 = VSlice Nil 0 0 /\ Vtables ci2 = VSlice Nil 0 0
     /\ load_TypeInfo (TypeInfo_ ci1) h2
        = Ok {| TypeName := Name T; TypeID := At (TypeBlock T) 0 [] |} h2
     /\ load_TypeInfo (TypeInfo_ ci2) h2
        = Ok {| TypeName := Name T; TypeID := At (TypeBlock T) 0 [] |} h2)
  /\ (forall tc h, makeClassInfo tc None h = Panics NilDereference h).
Proof.
  split; [| reflexivity].
  intros tc T h.
  set (ti := OTypeInfo {| TypeName := Name T; TypeID := At (TypeBlock T) 0 [] |}).
  set (a1 := fresh_block h). set (g1 := <[a1 := ti]> h).
  set (a2 := fresh_block g1).
  set (ci1 := {| Vtables := VSlice Nil 0 0; TypeInfo_ := At (HeapBlock a1) 0 [];
                 Offset := 0; IsClass := Nil; Deinit_ := Nil |}).
  set (g2 := <[a2 := OClassInfo ci1]> g1).
  set (a3 := fresh_block g2). set (g3 := <[a3 := ti]> g2).
  set (a4 := fresh_block g3).
  set (ci2 := {| Vtables := VSlice Nil 0 0; TypeInfo_ := At (HeapBlock a3) 0 [];
                 Offset := 0; IsClass := Nil; Deinit_ := Nil |}).
  set (g4 := <[a4 := OClassInfo ci2]> g3).
  assert (H21 : a2 <> a1).
  { apply fresh_block_ne. unfold g1. rewrite lookup_insert_eq. eauto. }
  assert (G2a1 : g2 !! a1 = Some ti).
  { unfold g2. rewrite lookup_insert_ne by exact H21. apply lookup_insert_eq. }
  assert (G2a2 : g2 !! a2 = Some (OClassInfo ci1)) by apply lookup_insert_eq.
  assert (H31 : a3 <> a1) by (apply fresh_block_ne; eauto).
  assert (H32 : a3 <> a2) by (apply fresh_block_ne; eauto).
  assert (G3a1 : g3 !! a1 = Some ti).
  { unfold g3. now rewrite lookup_insert_ne. }
  assert (G3a2 : g3 !! a2 = Some (OClassInfo ci1)).
  { unfold g3. now rewrite lookup_insert_ne. }
  assert (G3a3 : g3 !! a3 = Some ti) by apply lookup_insert_eq.
  assert (H41 : a4 <> a1) by (apply fresh_block_ne; eauto).
  assert (H42 : a4 <> a2) by (apply fresh_block_ne; eauto).
  assert (H43 : a4 <> a3) by (apply fresh_block_ne; eauto).
  exists (At (HeapBlock a2) 0 []), g2, (At (HeapBlock a4) 0 []), g4, ci1, ci2.
  split; [apply makeClassInfo_eq |]. split; [apply makeClassInfo_eq |].
  split; [congruence |].
  split; [unfold load_ClassInfo, g4; now rewrite lookup_insert_ne, G3a2 |].
  split; [unfold load_ClassInfo, g4; now rewrite lookup_insert_eq |].
  split; [simpl; congruence |].
  do 4 (split; [reflexivity |]).
  split; simpl; unfold load_TypeInfo, g4; rewrite lookup_insert_ne by congruence.
  - now rewrite G3a1.
  - now rewrite G3a3.
Qed.

(** ** [Klass.Ptr] *)

Lemma load_Klass_preserved (p : pointer) (K : Klass) (h h' : heap) :
  load_Klass p h = Ok K h -> preserved h h' -> load_Klass p h' = Ok K h'.
Proof.
  unfold load_Klass. intros H Hp.
  destruct p as [| [n| |] off sel]; try discriminate.
  destruct off; try discriminate. destruct sel; try discriminate.
  destruct (h !! n) as [[| | |k]|] eqn:En; try discriminate.
  rewrite (Hp _ _ En). congruence.
Qed.

Lemma AsPtr_no_address (tc : toolchain) (obj : any) (h : heap) :
  has_address tc (Value_Kind (ValueOf obj)) = false ->
  AsPtr tc obj h
  = Panics (ValueError "reflect.Value.Pointer" (Value_Kind (ValueOf obj))) h.
Proof.
  unfold AsPtr, Value_Pointer.
  destruct obj as [[t v]|]; simpl; [| reflexivity].
  destruct (Kind_of t), tc; simpl; try discriminate; reflexivity.
Qed.

Lemma New_adopts_run (tc : toolchain) (allocator : any) (T it : type)
    (iv : value) (h : heap) :
  exists m info h',
    New tc allocator (Some T) (Some (it, iv)) h = Ok (At (HeapBlock m) 0 []) h'
    /\ preserved h h'
    /\ h' !! m = Some (OKlass {| Header := {| Info := info |};
                                 Allocator := allocator;
                                 Class := Some (it, iv) |})
    /\ h !! m = None.
Proof.
  rewrite New_adopts_eq.
  pose proof (makeClassInfo_eq tc T h) as E. cbv zeta in E.
  pose proof (makeClassInfo_preserved _ _ _ _ _ E) as HP.
  rewrite E. do 3 eexists. split; [reflexivity |]. split; [| split].
  - eapply preserved_trans; [exact HP | apply preserved_alloc].
  - apply lookup_insert_eq.
  - match goal with |- h !! ?x = None => destruct (h !! x) eqn:Em end;
      [| reflexivity].
    apply HP in Em. rewrite fresh_block_None in Em. discriminate.
Qed.

(** [Klass.Ptr] on a handle that [New] built around an initializer is
    [AsPtr] of the initializer: the pointer itself for a pointer, and a
    panic of [reflect.Value.Pointer] for an initializer of a kind without
    an address (a struct, a number, ...), which [New] accepts all the
    same. *)
Theorem Klass_Ptr_of_New :
  forall (tc : toolchain) (allocator : any) (T it : type) (iv : value) (h : heap),
  exists k h',
    New tc allocator (Some T) (Some (it, iv)) h = Ok k h'
    /\ Klass_Ptr tc k h' = AsPtr tc (Some (it, iv)) h'
    /\ (has_address tc (Kind_of it) = false ->
        Klass_Ptr tc k h'
        = Panics (ValueError "reflect.Value.Pointer" (Kind_of it)) h')
    /\ (forall p, Kind_of it = Ptr -> iv = VPointer p ->
        Klass_Ptr tc k h' = Ok p h').
Proof.
  intros tc allocator T it iv h.
  destruct (New_adopts_run tc allocator T it iv h)
    as (m & info & h' & HN & _ & HL & _).
  assert (HK : Klass_Ptr tc (At (HeapBlock m) 0 []) h' = AsPtr tc (Some (it, iv)) h').
  { unfold Klass_Ptr, bind, load_Klass. now rewrite HL. }
  exists (At (HeapBlock m) 0 []), h'. split; [exact HN |]. split; [exact HK |].
  split.
  - intros Hk. rewrite HK. now apply AsPtr_no_address.
  - intros p Hk ->. rewrite HK. unfold AsPtr, Value_Pointer. simpl.
    now rewrite Hk.
Qed.

(** ** [From] *)

Lemma From_TestStruct_run (tc : toolchain) (T : type) (b : block) (off : Z)
    (sel : list nat) (h : heap) :
  Name T = "TestStruct" ->
  exists m info h',
    From tc (At b off sel) (Some T) h = Ok (At (HeapBlock m) 0 []) h'
    /\ h !! m = None
    /\ preserved h h'
    /\ load_Klass (At (HeapBlock m) 0 []) h'
       = Ok {| Header := {| Info := info |}; Allocator := None;
               Class := Some (PtrTo T, VPointer (At b off sel)) |} h'
    /\ TypeID_of info h' = Ok (At (TypeBlock T) 0 []) h'.
Proof.
  intros HN.
  pose proof (makeClassInfo_eq tc T h) as E. cbv zeta in E.
  pose proof (makeClassInfo_preserved _ _ _ _ _ E) as HP.
  pose proof (makeClassInfo_TypeID _ _ _ _ _ E) as HT.
  do 3 eexists. split.
  - unfold From. simpl. unfold bind at 1. simpl. rewrite HN. simpl.
    unfold bind at 1. simpl. unfold bind at 1. simpl.
    unfold bind at 1. simpl. unfold bind at 1. simpl.
    unfold bind at 1. rewrite E. unfold alloc. reflexivity.
  - split; [| split; [| split]].
    + match goal with |- h !! ?x = None => destruct (h !! x) eqn:Em end;
        [| reflexivity].
      apply HP in Em. rewrite fresh_block_None in Em. discriminate.
    + eapply preserved_trans; [exact HP | apply preserved_alloc].
    + unfold load_Klass. now rewrite lookup_insert_eq.
    + eapply TypeID_of_preserved; [exact HT | apply preserved_alloc].
Qed.

(** [From] for a type named [TestStruct] does not look for a handle: for
    every non-nil address, whether or not a handle owns it, it allocates a
    new [Klass] that owns the address typed as a pointer to the class
    type, with no allocator.  For the nil address it returns nil, and for
    the nil [reflect.Type] and a non-nil address it panics. *)
Theorem From_TestStruct_builds_a_handle :
  (forall tc T h, From tc Nil T h = Ok Nil h)
  /\ (forall tc b off sel h,
        From tc (At b off sel) None h = Panics NilDereference h)
  /\ (forall tc T b off sel h,
        Name T = "TestStruct" ->
        exists m info h',
          From tc (At b off sel) (Some T) h = Ok (At (HeapBlock m) 0 []) h'
          /\ h !! m = None
          /\ preserved h h'
          /\ load_Klass (At (HeapBlock m) 0 []) h'
             = Ok {| Header := {| Info := info |}; Allocator := None;
                     Class := Some (PtrTo T, VPointer (At b off sel)) |} h'
          /\ TypeID_of info h' = Ok (At (TypeBlock T) 0 []) h').
Proof.
  split; [reflexivity |]. split; [reflexivity |].
  intros tc T b off sel h. apply From_TestStruct_run.
Qed.

(** [Ptr] then [From], for a type named [TestStruct] and a handle that
    owns a non-nil pointer: the result is a handle that owns the same
    address, typed as a pointer to the class type.  It is a new handle, not
    the one the address came from: it has no allocator, and the first
    handle is left as it was. *)
Theorem From_recovers_address_for_TestStruct :
  forall (tc : toolchain) (T it : type) (k : pointer) (K : Klass)
         (b : block) (off : Z) (sel : list nat) (h : heap),
    Name T = "TestStruct" ->
    load_Klass k h = Ok K h ->
    Class K = Some (it, VPointer (At b off sel)) ->
    Kind_of it = Ptr ->
    exists k' info h',
      (p <- Klass_Ptr tc k ;; From tc p (Some T)) h = Ok k' h'
      /\ load_Klass k' h'
         = Ok {| Header := {| Info := info |}; Allocator := None;
                 Class := Some (PtrTo T, VPointer (At b off sel)) |} h'
      /\ load_Klass k h' = Ok K h'
      /\ k' <> k.
Proof.
  intros tc T it k K b off sel h HN HL HC HK.
  assert (HP : Klass_Ptr tc k h = Ok (At b off sel) h).
  { unfold Klass_Ptr. rewrite (bind_Ok _ _ _ _ _ HL), HC.
    unfold Value_Pointer. simpl. now rewrite HK. }
  destruct (From_TestStruct_run tc T b off sel h HN)
    as (m & info & h' & HF & Hm & Hpres & HL' & _).
  exists (At (HeapBlock m) 0 []), info, h'. rewrite (bind_Ok _ _ _ _ _ HP).
  split; [exact HF |]. split; [exact HL' |].
  split; [exact (load_Klass_preserved _ _ _ _ HL Hpres) |].
  intros <-. unfold load_Klass in HL. rewrite Hm in HL. discriminate.
Qed.

(** The theorem at the handle of block 3 of [heap1]. *)
Lemma From_recovers_TestStruct_handle :
  Name TestStruct = "TestStruct"
  /\ load_Klass (At (HeapBlock 3) 0 []) heap1 = Ok tsKlass heap1
  /\ Class tsKlass = Some (TPtr TestStruct, VPointer (At (HeapBlock 1) 0 []))
  /\ Kind_of (TPtr TestStruct) = Ptr
  /\ exists k' info h',
      (p <- Klass_Ptr Go1_23 (At (HeapBlock 3) 0 []) ;;
       From Go1_23 p (Some TestStruct)) heap1 = Ok k' h'
      /\ load_Klass k' h'
         = Ok {| Header := {| Info := info |}; Allocator := None;
                 Class := Some (PtrTo TestStruct,
                                VPointer (At (HeapBlock 1) 0 [])) |} h'
      /\ load_Klass (At (HeapBlock 3) 0 []) h' = Ok tsKlass h'
      /\ k' <> At (HeapBlock 3) 0 [].
Proof.
  refine (conj eq_refl (conj eq_refl (conj eq_refl (conj eq_refl _)))).
  exact (From_recovers_address_for_TestStruct Go1_23 TestStruct (TPtr TestStruct)
           (At (HeapBlock 3) 0 []) tsKlass (HeapBlock 1) 0 [] heap1
           eq_refl eq_refl eq_refl eq_refl).
Defined.

(** [From] for an address 24 bytes into a block that holds a [Klass]. *)
Lemma From_finds_Klass (tc : toolchain) (T : type) (p : pointer) (n : positive)
    (K : Klass) (h : heap) :
  Name T <> "TestStruct" ->
  uintptr_of p h = Ok (At (HeapBlock n) 24 []) h ->
  h !! n = Some (OKlass K) ->
  From tc p (Some T) h
  = match Class K with
    | Some _ =>
        Ok (At (HeapBlock (fresh_block h)) 0 [])
           (<[fresh_block h := OKlass K]> h)
    | None => Ok (At (HeapBlock n) 0 []) h
    end.
Proof.
  intros HN HU Hh. unfold From.
  destruct p as [|b' off sel]; [discriminate |]. cbn [is_Nil].
  unfold bind at 1, Type_Name, ret at 1.
  destruct (String.eqb_spec (Name T) "TestStruct") as [E|_]; [contradiction |].
  unfold bind at 1. rewrite HU.
  change (getClassOffset (Some T)) with 24. cbn [pointer_sub is_Nil].
  unfold bind, load_Klass. simpl. rewrite Hh.
  destruct K as [hd al [c|]]; reflexivity.
Qed.

(** [Ptr] then [From], for a type with any name other than [TestStruct].
    When the handle owns a pointer to a variable, or to anything less than
    24 bytes into a block, [From] displaces the address by the offset of
    [Klass.Class], 24, and reads a [Klass] that would start before the
    block: no handle is recovered.  The arithmetic is right for one kind
    of address, that of the [Class] field of a [Klass]: for a handle that
    owns [&hd.Class], [From] finds [hd], and returns a copy of it in a new
    block when [hd] owns a value and [hd] itself when it owns none. *)
Theorem From_loses_handles_of_other_types :
  (forall (tc : toolchain) (T it : type) (k : pointer) (K : Klass)
          (p : pointer) (b : block) (d : Z) (h : heap),
     Name T <> "TestStruct" ->
     load_Klass k h = Ok K h ->
     Class K = Some (it, VPointer p) ->
     Kind_of it = Ptr ->
     uintptr_of p h = Ok (At b d []) h ->
     d < 24 ->
     (p <- Klass_Ptr tc k ;; From tc p (Some T)) h = Undefined)
  /\ (forall (tc : toolchain) (T it : type) (k : pointer) (K hd : Klass)
             (n : positive) (h : heap),
        Name T <> "TestStruct" ->
        load_Klass k h = Ok K h ->
        Class K = Some (it, VPointer (At (HeapBlock n) 0 [2%nat])) ->
        Kind_of it = Ptr ->
        h !! n = Some (OKlass hd) ->
        (p <- Klass_Ptr tc k ;; From tc p (Some T)) h
        = match Class hd with
          | Some _ =>
              Ok (At (HeapBlock (fresh_block h)) 0 [])
                 (<[fresh_block h := OKlass hd]> h)
          | None => Ok (At (HeapBlock n) 0 []) h
          end).
Proof.
  split.
  - intros tc T it k K p b d h HN HL HC HK HU Hd.
    assert (HP : Klass_Ptr tc k h = Ok p h).
    { unfold Klass_Ptr. rewrite (bind_Ok _ _ _ _ _ HL), HC.
      unfold Value_Pointer. simpl. now rewrite HK. }
    rewrite (bind_Ok _ _ _ _ _ HP). exact (From_displaces tc T p b d h HN HU Hd).
  - intros tc T it k K hd n h HN HL HC HK Hn.
    assert (HP : Klass_Ptr tc k h = Ok (At (HeapBlock n) 0 [2%nat]) h).
    { unfold Klass_Ptr. rewrite (bind_Ok _ _ _ _ _ HL), HC.
      unfold Value_Pointer. simpl. now rewrite HK. }
    rewrite (bind_Ok _ _ _ _ _ HP). apply From_finds_Klass; [exact HN | | exact Hn].
    unfold uintptr_of. now rewrite Hn.
Qed.

(** The theorem at the handle of block 4 of [heap1], which owns the
    [Dog], and at the handle of block 8 of [heap5], which owns the address
    of the [Class] field of the handle of block 4. *)
Lemma From_loses_Dog_handle :
  Name Dog <> "TestStruct"
  /\ load_Klass (At (HeapBlock 4) 0 []) heap1 = Ok rexKlass heap1
  /\ Class rexKlass = Some (TPtr Dog, VPointer (At (HeapBlock 2) 0 []))
  /\ Kind_of (TPtr Dog) = Ptr
  /\ uintptr_of (At (HeapBlock 2) 0 []) heap1 = Ok (At (HeapBlock 2) 0 []) heap1
  /\ 0 < 24
  /\ (p <- Klass_Ptr Go1_23 (At (HeapBlock 4) 0 []) ;;
      From Go1_23 p (Some Dog)) heap1 = Undefined
  /\ load_Klass (At (HeapBlock 8) 0 []) heap5 = Ok classFieldKlass heap5
  /\ Class classFieldKlass
     = Some (TPtr t_any, VPointer (At (HeapBlock 4) 0 [2%nat]))
  /\ heap5 !! 4%positive = Some (OKlass rexKlass)
  /\ (p <- Klass_Ptr Go1_23 (At (HeapBlock 8) 0 []) ;;
      From Go1_23 p (Some Dog)) heap5
     = Ok (At (HeapBlock (fresh_block heap5)) 0 [])
          (<[fresh_block heap5 := OKlass rexKlass]> heap5).
Proof.
  assert (HN : Name Dog <> "TestStruct") by discriminate.
  assert (Hd : 0 < 24) by reflexivity.
  refine (conj HN (conj eq_refl (conj eq_refl (conj eq_refl (conj eq_refl
            (conj Hd (conj _ (conj eq_refl (conj eq_refl (conj eq_refl _)))))))))).
  - exact (proj1 From_loses_handles_of_other_types Go1_23 Dog (TPtr Dog)
             (At (HeapBlock 4) 0 []) rexKlass (At (HeapBlock 2) 0 [])
             (HeapBlock 2) 0 heap1 HN eq_refl eq_refl eq_refl eq_refl Hd).
  - exact (proj2 From_loses_handles_of_other_types Go1_23 Dog (TPtr t_any)
             (At (HeapBlock 8) 0 []) classFieldKlass rexKlass 4%positive heap5
             HN eq_refl eq_refl eq_refl eq_refl).
Defined.

(** The one address the offset arithmetic of [From] is right for: the
    address of the [Class] field of a [Klass], 24 bytes into its block.
    [From] then returns a copy of that [Klass] in a new block when the
    [Klass] owns a value, and the [Klass] itself when it owns none; the
    class type is not compared with anything. *)
Theorem From_at_the_Class_field :
  forall (tc : toolchain) (T : type) (n : positive) (K : Klass) (h : heap),
    Name T <> "TestStruct" ->
    h !! n = Some (OKlass K) ->
    From tc (At (HeapBlock n) 24 []) (Some T) h
    = match Class K with
      | Some _ =>
          Ok (At (HeapBlock (fresh_block h)) 0 [])
             (<[fresh_block h := OKlass K]> h)
      | None => Ok (At (HeapBlock n) 0 []) h
      end.
Proof.
  intros tc T n K h HN Hh.
  apply From_finds_Klass; [exact HN | reflexivity | exact Hh].
Qed.

(** The theorem at the handle of block 4 of [heap1]. *)
Lemma From_at_the_Class_field_of_rexKlass :
  Name Dog <> "TestStruct"
  /\ heap1 !! 4%positive = Some (OKlass rexKlass)
  /\ From Go1_23 (At (HeapBlock 4) 24 []) (Some Dog) heap1
     = Ok (At (HeapBlock (fresh_block heap1)) 0 [])
          (<[fresh_block heap1 := OKlass rexKlass]> heap1).
Proof.
  assert (HN : Name Dog <> "TestStruct") by discriminate.
  refine (conj HN (conj eq_refl _)).
  exact (From_at_the_Class_field Go1_23 Dog 4%positive rexKlass heap1 HN eq_refl).
Defined.

End HandleProps.

(** * Further properties of the casts *)

Module CastProps.
Import GoType Mem Run Reflect Oop Friendly Spec Fixtures Props HandleProps.
#[local] Open Scope go_scope.

Lemma directlyAssignable_other_kind (I T : type) :
  Kind_of I <> Kind_of T -> directlyAssignable I T = false.
Proof.
  intros HK. unfold directlyAssignable.
  rewrite bool_decide_eq_false_2 by congruence.
  rewrite (bool_decide_eq_false_2 (Kind_of I = Kind_of T)) by exact HK.
  now rewrite andb_false_r.
Qed.

Ltac cast_run :=
  cbv beta iota zeta delta
    [Cast As ValueOf Value_Type Value_Kind Type_Implements Type_AssignableTo
     bind ret throw undefined Value_Interface Value_Elem Value_Addr
     Value_CanAddr contents].

(** [Cast] by cases, for a value boxed in [interface{}] (its dynamic type
    is not an interface type) and an interface type as the target. *)
Lemma Cast_eq (T : type) (v : value) (I : type) (h : heap) :
  Kind_of I = Interface ->
  Kind_of T <> Interface ->
  Cast (Some (T, v)) (Some I) h
  = if implements I T then Ok (Some (T, v)) h
    else if bool_decide (Kind_of T = Ptr) then
      match v, Elem T with
      | VPointer Nil, _ => Panics (ValueError "reflect.Value.Type" Invalid) h
      | VPointer (At _ _ _), Some e =>
          if implements I e then Ok (Some (T, v)) h else Ok None h
      | _, _ => Undefined
      end
    else if implements I (PtrTo T) then
      Ok (Some (PtrTo T, VPointer (At (HeapBlock (fresh_block h)) 0 [])))
         (<[fresh_block h := OValue T v]> h)
    else Ok None h.
Proof.
  intros HI HT.
  assert (HA : directlyAssignable I T = false).
  { apply directlyAssignable_other_kind. congruence. }
  assert (Hstep : forall (B : Type) (a : B) (f : B -> M any) (h0 : heap),
             bind (ret a) f h0 = f a h0) by reflexivity.
  destruct (implements I T) eqn:H1.
  - cast_run. rewrite HI. cast_run. rewrite H1. cast_run.
    destruct (Kind_of T); try congruence; reflexivity.
  - case_bool_decide as HP.
    + cast_run. rewrite HI. cast_run. rewrite H1, HP. cast_run.
      destruct v as [| | | | | |p| | | |]; try reflexivity.
      destruct p as [|b off sel]; [reflexivity |].
      destruct (Elem T) as [e|]; [| reflexivity].
      destruct (implements I e) eqn:H2; [reflexivity |].
      cast_run. rewrite ?HA, ?H1. reflexivity.
    + destruct (implements I (PtrTo T)) eqn:H3; [now apply Cast_copy_eq |].
      cast_run. rewrite HI. cast_run. rewrite H1.
      destruct (Kind_of T) eqn:EK; try congruence;
        cast_run; rewrite ?H3; cast_run; rewrite ?HA, ?H1, ?H3; reflexivity.
Qed.

(** [Cast] hands back the value it was given, and allocates nothing, when
    the value's type implements the target, and when the value is a
    non-nil pointer whose element type does: the result is the input, not a
    copy of it. *)
Theorem Cast_returns_the_input :
  forall (T : type) (v : value) (I : type) (h : heap),
    Kind_of T <> Interface ->
    Kind_of I = Interface ->
    implements I T = true
    \/ (Kind_of T = Ptr
        /\ exists b off sel e,
            v = VPointer (At b off sel) /\ Elem T = Some e
            /\ implements I e = true) ->
    Cast (Some (T, v)) (Some I) h = Ok (Some (T, v)) h.
Proof.
  intros T v I h HT HI Hc. rewrite (Cast_eq T v I h HI HT).
  destruct (implements I T); [reflexivity |].
  destruct Hc as [Hc | (HP & b & off & sel & e & -> & HE & H2)]; [discriminate |].
  rewrite bool_decide_eq_true_2 by exact HP. now rewrite HE, H2.
Qed.

(** The pointer case of [TestCast]. *)
Lemma Cast_returns_ts :
  Kind_of (TPtr TestStruct) <> Interface
  /\ Kind_of TestInterface = Interface
  /\ implements TestInterface (TPtr TestStruct) = true
  /\ Cast ts (Some TestInterface) heap0 = Ok ts heap0.
Proof.
  assert (HT : Kind_of (TPtr TestStruct) <> Interface) by discriminate.
  refine (conj HT (conj eq_refl (conj eq_refl _))).
  exact (Cast_returns_the_input (TPtr TestStruct) _ TestInterface heap0
           HT eq_refl (or_introl eq_refl)).
Defined.

(** [Cast] returns nil, and allocates nothing, when neither the value's
    type, nor (for a non-nil pointer) its element type, nor (for a value
    that is not a pointer) the pointer to its type implements the target:
    the assignability test at its end never adds a case. *)
Theorem Cast_mismatch_is_nil :
  forall (T : type) (v : value) (I : type) (h : heap),
    Kind_of T <> Interface ->
    Kind_of I = Interface ->
    implements I T = false ->
    (Kind_of T <> Ptr /\ implements I (PtrTo T) = false)
    \/ (Kind_of T = Ptr
        /\ exists b off sel e,
            v = VPointer (At b off sel) /\ Elem T = Some e
            /\ implements I e = false) ->
    Cast (Some (T, v)) (Some I) h = Ok None h.
Proof.
  intros T v I h HT HI H1 Hc. rewrite (Cast_eq T v I h HI HT), H1.
  destruct Hc as [[HP H3] | (HP & b & off & sel & e & -> & HE & H2)].
  - rewrite bool_decide_eq_false_2 by exact HP. now rewrite H3.
  - rewrite bool_decide_eq_true_2 by exact HP. now rewrite HE, H2.
Qed.

(** The last case of [TestCast]. *)
Lemma Cast_ts_to_NonImplementedInterface :
  Kind_of (TPtr TestStruct) <> Interface
  /\ Kind_of NonImplementedInterface = Interface
  /\ implements NonImplementedInterface (TPtr TestStruct) = false
  /\ Cast ts (Some NonImplementedInterface) heap0 = Ok None heap0.
Proof.
  assert (HT : Kind_of (TPtr TestStruct) <> Interface) by discriminate.
  refine (conj HT (conj eq_refl (conj eq_refl _))).
  refine (Cast_mismatch_is_nil (TPtr TestStruct) _ NonImplementedInterface heap0
            HT eq_refl eq_refl (or_intror (conj eq_refl _))).
  exists (HeapBlock 1), 0, [], TestStruct. repeat split.
Defined.

(** [Cast] converts nothing: for every input but the nil interface it
    panics in [Type.Implements] when the target is the nil
    [reflect.Type], and when the target is not an interface type. *)
Theorem Cast_panics_unless_target_is_an_interface :
  (forall T v h,
     Cast (Some (T, v)) None h
     = Panics (NilType "reflect: nil type passed to Type.Implements") h)
  /\ (forall T v U h,
        Kind_of U <> Interface ->
        Cast (Some (T, v)) (Some U) h
        = Panics (NonInterfaceType
                    "reflect: non-interface type passed to Type.Implements") h).
Proof.
  split; [reflexivity |].
  intros T v U h HU. cast_run.
  destruct (Kind_of U); try congruence; reflexivity.
Qed.

(** [Cast] on a nil pointer: when the pointer type does not implement the
    target, [Cast] asks the zero Value that [Elem] returns for its type,
    and panics. *)
Theorem Cast_nil_pointer_panics :
  forall (T I : type) (h : heap),
    Kind_of T = Ptr ->
    Kind_of I = Interface ->
    implements I T = false ->
    Cast (Some (T, VPointer Nil)) (Some I) h
    = Panics (ValueError "reflect.Value.Type" Invalid) h.
Proof.
  intros T I h HP HI H1.
  rewrite (Cast_eq T _ I h HI) by congruence.
  rewrite H1. now rewrite bool_decide_eq_true_2.
Qed.

(** The theorem at the nil pointer to a [Dog] and an interface it does
    not implement. *)
Lemma Cast_nilDog_panics :
  Kind_of (TPtr Dog) = Ptr
  /\ Kind_of NonImplementedInterface = Interface
  /\ implements NonImplementedInterface (TPtr Dog) = false
  /\ Cast nilDog (Some NonImplementedInterface) heap0
     = Panics (ValueError "reflect.Value.Type" Invalid) heap0.
Proof.
  refine (conj eq_refl (conj eq_refl (conj eq_refl _))).
  exact (Cast_nil_pointer_panics (TPtr Dog) NonImplementedInterface heap0
           eq_refl eq_refl eq_refl).
Defined.

(** A result of [Cast] casts to itself: casting what [Cast] returned to
    the same target returns it again and allocates nothing, also when the
    first call made a copy. *)
Theorem Cast_of_a_result :
  forall (T : type) (v : value) (I : type) (r : type * value) (h h' : heap),
    Kind_of T <> Interface ->
    Cast (Some (T, v)) (Some I) h = Ok (Some r) h' ->
    Cast (Some r) (Some I) h' = Ok (Some r) h'.
Proof.
  intros T v I r h h' HT HC.
  assert (HI : Kind_of I = Interface).
  { destruct (decide (Kind_of I = Interface)) as [E|E]; [exact E |].
    revert HC. cast_run. destruct (Kind_of I); try congruence; discriminate. }
  rewrite (Cast_eq T v I h HI HT) in HC.
  destruct (implements I T) eqn:H1.
  - injection HC as <- <-. rewrite (Cast_eq T v I h HI HT). now rewrite H1.
  - case_bool_decide as HP.
    + destruct v as [| | | | | |p| | | |]; try discriminate.
      destruct p as [|b off sel]; [discriminate |].
      destruct (Elem T) as [e|] eqn:HE; [| discriminate].
      destruct (implements I e) eqn:H2; [| discriminate].
      injection HC as <- <-. rewrite (Cast_eq T _ I h HI HT), H1.
      rewrite bool_decide_eq_true_2 by exact HP. now rewrite HE, H2.
    + destruct (implements I (PtrTo T)) eqn:H3; [| discriminate].
      injection HC as <- <-.
      rewrite (Cast_eq (PtrTo T) _ I _ HI) by discriminate. now rewrite H3.
Qed.

(** The theorem at the value case of [TestCast], whose first call
    copies. *)
Lemma Cast_of_a_copy :
  Kind_of TestStruct <> Interface
  /\ Cast (Some (TestStruct, VStruct [VInt 84])) (Some TestInterface) heap0
     = Ok (Some (PtrTo TestStruct, VPointer (At (HeapBlock 3) 0 [])))
          (<[3%positive := OValue TestStruct (VStruct [VInt 84])]> heap0)
  /\ Cast (Some (PtrTo TestStruct, VPointer (At (HeapBlock 3) 0 [])))
          (Some TestInterface)
          (<[3%positive := OValue TestStruct (VStruct [VInt 84])]> heap0)
     = Ok (Some (PtrTo TestStruct, VPointer (At (HeapBlock 3) 0 [])))
          (<[3%positive := OValue TestStruct (VStruct [VInt 84])]> heap0).
Proof.
  assert (HT : Kind_of TestStruct <> Interface) by discriminate.
  assert (HC : Cast (Some (TestStruct, VStruct [VInt 84])) (Some TestInterface) heap0
               = Ok (Some (PtrTo TestStruct, VPointer (At (HeapBlock 3) 0 [])))
                    (<[3%positive := OValue TestStruct (VStruct [VInt 84])]> heap0))
    by reflexivity.
  refine (conj HT (conj HC _)).
  exact (Cast_of_a_result TestStruct _ TestInterface _ heap0 _ HT HC).
Defined.

(** ** [As] *)

(** [As] by cases on the type it tests, for any target. *)
Lemma As_eq (obj : any) (t U : type) (h : heap) :
  deref_type obj = Some t ->
  As obj (Some U) h
  = if directlyAssignable U t || implements U t then
      if haveIdenticalUnderlyingType U t then
        Ok (Some (PtrTo U, VPointer (fst (As_referent obj h))))
           (snd (As_referent obj h))
      else Panics (NotConvertible (PtrTo t) (PtrTo U)) (snd (As_referent obj h))
    else Ok None h.
Proof.
  intros Hd. destruct obj as [[ot ov]|]; [| discriminate].
  unfold deref_type in Hd.
  assert (Hstep : forall (B : Type) (a : B) (f : B -> M any) (h0 : heap),
             bind (ret a) f h0 = f a h0) by reflexivity.
  assert (Htail : forall V p h1,
             Value_Addr V h1 = Ok (Val false (PtrTo t) (VPointer p)) h1 ->
             (a <- Value_Addr V ;;
              c <- Value_Convert a (PtrTo U) ;;
              Value_Interface c) h1
             = if haveIdenticalUnderlyingType U t
               then Ok (Some (PtrTo U, VPointer p)) h1
               else Panics (NotConvertible (PtrTo t) (PtrTo U)) h1).
  { intros V p h1 HA. rewrite (bind_Ok _ _ _ _ _ HA).
    unfold bind at 1. rewrite Convert_pointer.
    destruct (haveIdenticalUnderlyingType U t); reflexivity. }
  destruct (decide (Kind_of ot = Ptr)) as [HP|HP].
  - rewrite HP in Hd.
    destruct ov as [| | | | | |p| | | |]; try discriminate.
    destruct p as [|b off sel]; [discriminate |].
    assert (HE : As (Some (ot, VPointer (At b off sel))) (Some U) h
                 = (assignable <- Type_AssignableTo t (Some U) ;;
                    if assignable then
                      a <- Value_Addr (Var false t (At b off sel)) ;;
                      c <- Value_Convert a (PtrTo U) ;;
                      Value_Interface c
                    else ret None) h).
    { unfold As, ValueOf, Value_Kind. rewrite HP.
      unfold Value_Elem at 1. rewrite HP. unfold contents at 1.
      rewrite bind_assoc, Hstep, Hd. reflexivity. }
    rewrite HE. unfold Type_AssignableTo. rewrite Hstep.
    unfold As_referent. rewrite HP. simpl fst. simpl snd.
    destruct (directlyAssignable U t || implements U t); [| reflexivity].
    now apply Htail.
  - assert (t = ot) as ->.
    { destruct (Kind_of ot); congruence. }
    set (b := fresh_block h). set (h1 := <[b := OValue ot ov]> h).
    assert (HR : As_referent (Some (ot, ov)) h = (At (HeapBlock b) 0 [], h1)).
    { unfold As_referent. destruct (Kind_of ot); try reflexivity. congruence. }
    assert (HE : As (Some (ot, ov)) (Some U) h
                 = (assignable <- Type_AssignableTo ot (Some U) ;;
                    if assignable then
                      objValue <- (n <- reflect_New (Some ot) ;;
                                   newValue <- Value_Elem n ;;
                                   Value_Set newValue (Val false ot ov) ;;;
                                   ret newValue) ;;
                      a <- Value_Addr objValue ;;
                      c <- Value_Convert a (PtrTo U) ;;
                      Value_Interface c
                    else ret None) h).
    { unfold As, ValueOf, Value_Kind.
      destruct (Kind_of ot); try congruence; reflexivity. }
    assert (HC : forall (k : Value -> M any),
               (objValue <- (n <- reflect_New (Some ot) ;;
                             newValue <- Value_Elem n ;;
                             Value_Set newValue (Val false ot ov) ;;;
                             ret newValue) ;;
                k objValue) h
               = k (Var false ot (At (HeapBlock b) 0 [])) h1).
    { intros k.
      unfold reflect_New, alloc, Value_Elem, Value_Set, contents, bind, ret.
      simpl. rewrite directlyAssignable_refl. unfold store, bind, ret.
      fold b. rewrite lookup_insert_eq. simpl. rewrite insert_insert_eq.
      reflexivity. }
    rewrite HE, HR. unfold Type_AssignableTo. rewrite Hstep.
    simpl fst. simpl snd.
    destruct (directlyAssignable U ot || implements U ot); [| reflexivity].
    rewrite HC. now apply Htail.
Qed.

Lemma As_referent_not_nil (obj : any) (t : type) (h : heap) :
  deref_type obj = Some t -> is_Nil (fst (As_referent obj h)) = false.
Proof.
  destruct obj as [[ot ov]|]; [| discriminate].
  unfold deref_type, As_referent.
  destruct (Kind_of ot); try reflexivity.
  destruct ov as [| | | | | |[|b off sel]| | | |]; try discriminate; reflexivity.
Qed.

Lemma As_returns (obj : any) (U : type) (a : any) (h h' : heap) :
  As obj (Some U) h = Ok a h' -> exists t, deref_type obj = Some t.
Proof.
  destruct obj as [[ot ov]|]; [| discriminate].
  unfold deref_type. destruct (decide (Kind_of ot = Ptr)) as [HP|HP].
  - rewrite HP. unfold As, ValueOf, Value_Kind. rewrite HP.
    unfold Value_Elem at 1. rewrite HP. unfold contents at 1.
    destruct ov as [| | | | | |[|b off sel]| | | |]; try discriminate.
    destruct (Elem ot); [eauto | discriminate].
  - intros _. destruct (Kind_of ot); try congruence; eauto.
Qed.

(** Whatever the target, a non-nil result of [As] is a non-nil pointer to
    the target type, and [As] applied to it returns it again without
    copying. *)
Theorem As_result_is_a_pointer_to_the_target :
  forall (obj : any) (U : type) (r : type * value) (h h' : heap),
    As obj (Some U) h = Ok (Some r) h' ->
    (exists p, r = (PtrTo U, VPointer p) /\ is_Nil p = false)
    /\ As (Some r) (Some U) h' = Ok (Some r) h'.
Proof.
  intros obj U r h h' HA.
  destruct (As_returns _ _ _ _ _ HA) as [t Hd].
  rewrite (As_eq obj t U h Hd) in HA.
  destruct (directlyAssignable U t || implements U t); [| discriminate].
  destruct (haveIdenticalUnderlyingType U t); [| discriminate].
  injection HA as <- <-.
  pose proof (As_referent_not_nil obj t h Hd) as HN.
  destruct (fst (As_referent obj h)) as [|b off sel] eqn:EP; [discriminate |].
  split; [eauto |].
  rewrite (As_eq (Some (PtrTo U, VPointer (At b off sel))) U U _ eq_refl).
  rewrite directlyAssignable_refl, haveIdenticalUnderlyingType_refl.
  reflexivity.
Qed.

(** The theorem at the [Dog] value of the specification's scenario. *)
Lemma As_result_for_Dog :
  As (Some (Dog, rex)) (Some Dog) heap0
  = Ok (Some (PtrTo Dog, VPointer (At (HeapBlock 3) 0 [])))
       (<[3%positive := OValue Dog rex]> heap0)
  /\ (exists p, (PtrTo Dog, VPointer (At (HeapBlock 3) 0 []))
                = (PtrTo Dog, VPointer p) /\ is_Nil p = false)
  /\ As (Some (PtrTo Dog, VPointer (At (HeapBlock 3) 0 []))) (Some Dog)
        (<[3%positive := OValue Dog rex]> heap0)
     = Ok (Some (PtrTo Dog, VPointer (At (HeapBlock 3) 0 [])))
          (<[3%positive := OValue Dog rex]> heap0).
Proof.
  assert (HA : As (Some (Dog, rex)) (Some Dog) heap0
               = Ok (Some (PtrTo Dog, VPointer (At (HeapBlock 3) 0 [])))
                    (<[3%positive := OValue Dog rex]> heap0)) by reflexivity.
  refine (conj HA _).
  exact (As_result_is_a_pointer_to_the_target _ Dog _ heap0 _ HA).
Defined.

(** [As] with an interface type as the target does not work as a cast to
    the interface: when the type it tests is not an interface type and
    implements the target, [As] passes the assignability test and then
    panics in [Value.Convert], which has no conversion from a pointer to
    the type to a pointer to the interface. *)
Theorem As_interface_target_panics :
  forall (obj : any) (t U : type) (h : heap),
    deref_type obj = Some t ->
    Kind_of U = Interface ->
    Kind_of t <> Interface ->
    implements U t = true ->
    As obj (Some U) h
    = Panics (NotConvertible (PtrTo t) (PtrTo U)) (snd (As_referent obj h)).
Proof.
  intros obj t U h Hd HU Ht HI.
  rewrite (As_eq obj t U h Hd), HI, orb_true_r.
  assert (HX : haveIdenticalUnderlyingType U t = false).
  { unfold haveIdenticalUnderlyingType.
    rewrite bool_decide_eq_false_2 by congruence.
    rewrite (bool_decide_eq_false_2 (Kind_of U = Kind_of t)) by congruence.
    reflexivity. }
  now rewrite HX.
Qed.

(** The theorem at a [Bird], whose type implements [Animal]. *)
Lemma As_Bird_to_Animal_panics :
  deref_type (Some (Bird, rex)) = Some Bird
  /\ Kind_of Animal = Interface
  /\ Kind_of Bird <> Interface
  /\ implements Animal Bird = true
  /\ As (Some (Bird, rex)) (Some Animal) heap0
     = Panics (NotConvertible (PtrTo Bird) (PtrTo Animal))
         (snd (As_referent (Some (Bird, rex)) heap0)).
Proof.
  assert (HB : Kind_of Bird <> Interface) by discriminate.
  refine (conj eq_refl (conj eq_refl (conj HB (conj eq_refl _)))).
  exact (As_interface_target_panics (Some (Bird, rex)) Bird Animal heap0
           eq_refl eq_refl HB eq_refl).
Defined.

(** [As] never writes to a block of the heap it starts from, whatever it
    is given and however it ends: a copy it makes is a new block. *)
Theorem As_keeps_the_heap :
  forall (obj : any) (targetType : option type) (h : heap),
    frames h (As obj targetType h).
Proof. intros obj targetType h. apply As_framed. Qed.

End CastProps.

(** * Further properties of the nil and zero values *)

Module NilProps.
Import GoType Mem Run Reflect Oop Friendly Spec Fixtures Props HandleProps.
#[local] Open Scope go_scope.

Lemma NullOrZeroInterface_eq (t : type) (v : value) (h : heap) :
  NullOrZeroInterface (Some (t, v)) h
  = Ok (if bool_decide (Kind_of t = Interface) then None
        else Some (t, zero t)) h.
Proof.
  unfold NullOrZeroInterface, TypeOf.
  case_bool_decide as Hk.
  - rewrite Hk. unfold reflect_Zero, bind, ret, Value_Interface. simpl.
    rewrite Hk. now rewrite (zero_interface t Hk).
  - destruct (Kind_of t) eqn:E; try congruence;
      unfold reflect_Zero, bind, ret, Value_Interface; simpl;
      rewrite E; reflexivity.
Qed.

Lemma IsNil_eq (t : type) (v : value) (h : heap) :
  IsNil (Some (t, v)) h = Ok (reference_like (Kind_of t) && ref_is_nil v) h.
Proof.
  unfold IsNil, Value_IsNil. simpl. destruct (Kind_of t); reflexivity.
Qed.

(** [IsNil] after [NullOrZeroInterface]: the empty representative of a
    value is nil for [IsNil] exactly when the value is the nil interface
    or its type is of a reference-like kind; the zero struct, number or
    string that [NullOrZeroInterface] returns for the other types is not.
    [NullOrZeroInterface] applied to its own result returns it again. *)
Theorem IsNil_of_NullOrZeroInterface :
  forall (i : any) (h : heap),
    (r <- NullOrZeroInterface i ;; IsNil r) h
    = Ok (match i with
          | None => true
          | Some (t, _) => reference_like (Kind_of t)
          end) h
    /\ (r <- NullOrZeroInterface i ;; NullOrZeroInterface r) h
       = NullOrZeroInterface i h.
Proof.
  intros [[t v]|] h; [| split; reflexivity].
  unfold bind. rewrite NullOrZeroInterface_eq.
  case_bool_decide as Hk.
  - split; [| reflexivity]. simpl. now rewrite Hk.
  - split.
    + rewrite IsNil_eq. f_equal.
      destruct (reference_like (Kind_of t)) eqn:E; [| reflexivity].
      now rewrite zero_reference_like.
    + rewrite NullOrZeroInterface_eq. now rewrite bool_decide_eq_false_2.
Qed.

(** [Nil.Of] returns for the nil interface only, and what it returns is
    not the nil interface: it is a nil [*int] in an interface, which
    [IsNil] takes for nil.  Every value boxed in [interface{}] makes it
    panic. *)
Theorem Nil_Of_returns_for_nil_only :
  (forall h, exists r,
      Nil_Of None h = Ok (Some r) h
      /\ r = (TPtr (TBasic BInt), VPointer Nil)
      /\ IsNil (Some r) h = Ok true h)
  /\ (forall t v h,
        Kind_of t <> Interface ->
        Nil_Of (Some (t, v)) h = Panics (PanicString "not an interface type") h).
Proof.
  split.
  - intros h. eexists. repeat split.
  - intros t v h Hk. unfold Nil_Of. simpl.
    case_bool_decide; [contradiction | reflexivity].
Qed.

End NilProps.

(** * Further properties of the wrapper *)

Module WrapperProps.
Import GoType Mem Run Reflect Oop Friendly Spec Fixtures Props HandleProps.
#[local] Open Scope go_scope.

Lemma Kind_Ptr_Elem (t : type) :
  Kind_of t = Ptr -> exists e, Elem t = Some e.
Proof.
  unfold Kind_of, Elem.
  destruct (underlying t) as [[]| | | | | | | | | |]; try discriminate; eauto.
Qed.

Lemma class_type_of_Some (t : type) : exists T, class_type_of t = Some T.
Proof.
  unfold class_type_of. destruct (Kind_of t) eqn:E; eauto.
  now apply Kind_Ptr_Elem.
Qed.

Lemma CreateObject_run (tc : toolchain) (allocator : any) (t : type)
    (v : value) (h : heap) :
  exists m n info h',
    CreateObject tc allocator (Some (t, v)) h = Ok (At (HeapBlock n) 0 []) h'
    /\ h' !! n = Some (OValue t_ObjectWrapper
                         (VStruct [VPointer (At (HeapBlock m) 0 [])]))
    /\ h' !! m = Some (OKlass {| Header := {| Info := info |};
                                 Allocator := allocator;
                                 Class := Some (t, v) |})
    /\ h !! m = None /\ h !! n = None /\ m <> n
    /\ preserved h h'.
Proof.
  destruct (class_type_of_Some t) as [T HT].
  destruct (New_adopts_run tc allocator T t v h)
    as (m & info & h1 & HN & HP & Hm & Hfr).
  exists m, (fresh_block h1), info, (<[fresh_block h1 :=
     OValue t_ObjectWrapper (VStruct [VPointer (At (HeapBlock m) 0 [])])]> h1).
  assert (Hne : fresh_block h1 <> m) by (apply fresh_block_ne; eauto).
  split.
  - unfold CreateObject. fold (class_type_of t). rewrite HT.
    rewrite (bind_Ok _ _ _ _ _ HN). reflexivity.
  - split; [apply lookup_insert_eq |].
    split; [now rewrite lookup_insert_ne |].
    split.
    { exact Hfr. }
    split.
    { destruct (h !! fresh_block h1) eqn:E; [| reflexivity].
      apply HP in E. rewrite fresh_block_None in E. discriminate. }
    split; [congruence |].
    eapply preserved_trans; [exact HP | apply preserved_alloc].
Qed.

Lemma preserved_None (h h' : heap) (n : positive) :
  preserved h h' -> h' !! n = None -> h !! n = None.
Proof.
  intros HP Hn. destruct (h !! n) eqn:E; [| reflexivity].
  apply HP in E. congruence.
Qed.

(** [CreateObject] returns nil and allocates nothing for the nil
    interface.  For every other initializer it returns a new wrapper
    around a new handle, two blocks that were not in the heap, and changes
    no block that was; the handle records the allocator it was given and
    owns the initializer, which [GetUnderlyingObject] gives back.
    [NewObjectFactory] makes a new factory that holds the nil allocator;
    the method [CreateObject] of a factory passes the allocator the
    factory holds, so a handle made through a new factory records the nil
    allocator. *)
Theorem CreateObject_then_GetUnderlyingObject :
  (forall tc allocator h, CreateObject tc allocator None h = Ok Nil h)
  /\ (forall tc f h, ObjectFactory_CreateObject tc f None h = Ok Nil h)
  /\ (forall tc allocator t v h,
      exists n m info h',
        CreateObject tc allocator (Some (t, v)) h = Ok (At (HeapBlock n) 0 []) h'
        /\ h !! n = None /\ h !! m = None /\ n <> m
        /\ load_klass (At (HeapBlock n) 0 []) h' = Ok (At (HeapBlock m) 0 []) h'
        /\ load_Klass (At (HeapBlock m) 0 []) h'
           = Ok {| Header := {| Info := info |}; Allocator := allocator;
                   Class := Some (t, v) |} h'
        /\ preserved h h'
        /\ GetUnderlyingObject (At (HeapBlock n) 0 []) h' = Ok (Some (t, v)) h')
  /\ (forall h,
      exists q h1,
        NewObjectFactory h = Ok (At (HeapBlock q) 0 []) h1
        /\ h !! q = None
        /\ preserved h h1
        /\ load (field_ptr (At (HeapBlock q) 0 []) 0) h1 = Ok (VIface None) h1)
  /\ (forall tc f allocator t v h,
        load (field_ptr f 0) h = Ok (VIface allocator) h ->
        ObjectFactory_CreateObject tc f (Some (t, v)) h
        = CreateObject tc allocator (Some (t, v)) h)
  /\ (forall tc t v h,
      exists n m info h',
        (f <- NewObjectFactory ;;
         ObjectFactory_CreateObject tc f (Some (t, v))) h
        = Ok (At (HeapBlock n) 0 []) h'
        /\ h !! n = None /\ h !! m = None /\ n <> m
        /\ load_klass (At (HeapBlock n) 0 []) h' = Ok (At (HeapBlock m) 0 []) h'
        /\ load_Klass (At (HeapBlock m) 0 []) h'
           = Ok {| Header := {| Info := info |}; Allocator := None;
                   Class := Some (t, v) |} h'
        /\ preserved h h'
        /\ GetUnderlyingObject (At (HeapBlock n) 0 []) h' = Ok (Some (t, v)) h').
Proof.
  assert (HG : forall tc allocator t v h,
             exists n m info h',
               CreateObject tc allocator (Some (t, v)) h
               = Ok (At (HeapBlock n) 0 []) h'
               /\ h !! n = None /\ h !! m = None /\ n <> m
               /\ load_klass (At (HeapBlock n) 0 []) h'
                  = Ok (At (HeapBlock m) 0 []) h'
               /\ load_Klass (At (HeapBlock m) 0 []) h'
                  = Ok {| Header := {| Info := info |}; Allocator := allocator;
                          Class := Some (t, v) |} h'
               /\ preserved h h'
               /\ GetUnderlyingObject (At (HeapBlock n) 0 []) h'
                  = Ok (Some (t, v)) h').
  { intros tc allocator t v h.
    destruct (CreateObject_run tc allocator t v h)
      as (m & n & info & h' & HC & Hn & Hm & Hfm & Hfn & Hne & HP).
    assert (HL : load_klass (At (HeapBlock n) 0 []) h'
                 = Ok (At (HeapBlock m) 0 []) h').
    { unfold load_klass, bind, load. simpl. now rewrite Hn. }
    assert (HK : load_Klass (At (HeapBlock m) 0 []) h'
                 = Ok {| Header := {| Info := info |}; Allocator := allocator;
                         Class := Some (t, v) |} h').
    { unfold load_Klass. now rewrite Hm. }
    exists n, m, info, h'. split; [exact HC |].
    split; [exact Hfn |]. split; [exact Hfm |]. split; [congruence |].
    split; [exact HL |]. split; [exact HK |]. split; [exact HP |].
    unfold GetUnderlyingObject. rewrite (bind_Ok _ _ _ _ _ HL). cbn [is_Nil].
    now rewrite (bind_Ok _ _ _ _ _ HK). }
  assert (HF : forall tc f allocator t v h,
             load (field_ptr f 0) h = Ok (VIface allocator) h ->
             ObjectFactory_CreateObject tc f (Some (t, v)) h
             = CreateObject tc allocator (Some (t, v)) h).
  { intros tc f allocator t v h HL. unfold ObjectFactory_CreateObject.
    now rewrite (bind_Ok _ _ _ _ _ HL). }
  split; [reflexivity |]. split; [reflexivity |]. split; [exact HG |].
  split; [| split; [exact HF |]].
  - intros h. exists (fresh_block h). eexists. split; [reflexivity |].
    split; [apply fresh_block_None |]. split; [apply preserved_alloc |].
    unfold load. simpl. now rewrite lookup_insert_eq.
  - intros tc t v h.
    set (q := fresh_block h).
    set (h1 := <[q := OValue t_ObjectFactory (VStruct [VIface None])]> h).
    assert (H01 : preserved h h1) by apply preserved_alloc.
    destruct (HG tc None t v h1)
      as (n & m & info & h' & HC & Hn & Hm & Hne & HL & HK & HP & HU).
    exists n, m, info, h'. split.
    + rewrite (bind_Ok _ _ h (At (HeapBlock q) 0 []) h1) by reflexivity.
      rewrite (HF tc _ None t v h1); [exact HC |].
      unfold load. simpl. unfold h1. now rewrite lookup_insert_eq.
    + split; [exact (preserved_None _ _ _ H01 Hn) |].
      split; [exact (preserved_None _ _ _ H01 Hm) |].
      split; [exact Hne |]. split; [exact HL |]. split; [exact HK |].
      split; [eapply preserved_trans; eassumption | exact HU].
Qed.

(** [Destroy] on a wrapper: the wrapper's [klass] field becomes nil and
    nothing else changes, in particular the handle it pointed to stays in
    the heap as it was.  Afterwards [GetUnderlyingObject] returns nil,
    [As] returns the error "object is not initialized" for every argument
    but nil, and a second [Destroy] changes nothing. *)
Theorem Destroy_clears_the_wrapper :
  forall (n : positive) (T0 : type) (k : pointer) (h : heap),
    h !! n = Some (OValue T0 (VStruct [VPointer k])) ->
    let o := At (HeapBlock n) 0 [] in
    let h' := <[n := OValue T0 (VStruct [VPointer Nil])]> h in
    Destroy o h = Ok tt h'
    /\ (forall m, m <> n -> h' !! m = h !! m)
    /\ GetUnderlyingObject o h' = Ok None h'
    /\ (forall it iv,
          ObjectWrapper_As o (Some (it, iv)) h'
          = Ok (None, Some "object is not initialized") h')
    /\ Destroy o h' = Ok tt h'.
Proof.
  intros n T0 k h Hn o h'.
  assert (Hn' : h' !! n = Some (OValue T0 (VStruct [VPointer Nil])))
    by apply lookup_insert_eq.
  assert (HL : load_klass o h' = Ok Nil h').
  { unfold load_klass, bind, load. simpl. now rewrite Hn'. }
  split; [| split; [| split; [| split]]].
  - unfold Destroy, load_klass, bind, load. simpl. rewrite Hn. simpl.
    destruct k as [|b off sel]; simpl.
    + unfold ret, h'. now rewrite insert_id.
    + unfold store. now rewrite Hn.
  - intros m Hm. unfold h'. now rewrite lookup_insert_ne.
  - unfold GetUnderlyingObject. now rewrite (bind_Ok _ _ _ _ _ HL).
  - intros it iv. unfold ObjectWrapper_As. now rewrite (bind_Ok _ _ _ _ _ HL).
  - unfold Destroy. now rewrite (bind_Ok _ _ _ _ _ HL).
Qed.

(** The theorem at the wrapper of block 5 of [heap2]. *)
Lemma Destroy_the_wrapper_of_heap2 :
  heap2 !! 5%positive
  = Some (OValue t_ObjectWrapper (VStruct [VPointer (At (HeapBlock 4) 0 [])]))
  /\ Destroy (At (HeapBlock 5) 0 []) heap2
     = Ok tt (<[5%positive := OValue t_ObjectWrapper (VStruct [VPointer Nil])]> heap2)
  /\ GetUnderlyingObject (At (HeapBlock 5) 0 [])
       (<[5%positive := OValue t_ObjectWrapper (VStruct [VPointer Nil])]> heap2)
     = Ok None
         (<[5%positive := OValue t_ObjectWrapper (VStruct [VPointer Nil])]> heap2).
Proof.
  pose proof (Destroy_clears_the_wrapper 5%positive t_ObjectWrapper
                (At (HeapBlock 4) 0 []) heap2 eq_refl) as H.
  cbv zeta in H.
  exact (conj eq_refl (conj (proj1 H) (proj1 (proj2 (proj2 H))))).
Defined.

(** [ObjectWrapper.As] on a wrapper whose handle owns a value: an error,
    and no panic, for the nil argument, for an argument that is not a
    pointer and for a pointer to anything but an interface type; for a
    pointer to an interface type, the result of [Cast] on the owned value
    and that interface type, with a nil error. *)
Theorem ObjectWrapper_As_checks_then_casts :
  forall (n m : positive) (T0 : type) (K : Klass) (c : type * value) (h : heap),
    h !! n = Some (OValue T0 (VStruct [VPointer (At (HeapBlock m) 0 [])])) ->
    h !! m = Some (OKlass K) ->
    Class K = Some c ->
    let o := At (HeapBlock n) 0 [] in
    ObjectWrapper_As o None h = Ok (None, Some "interfacePtr cannot be nil") h
    /\ (forall it iv,
          Kind_of it <> Ptr ->
          ObjectWrapper_As o (Some (it, iv)) h
          = Ok (None, Some "interfacePtr must be a pointer to an interface type") h)
    /\ (forall it iv e,
          Kind_of it = Ptr -> Elem it = Some e -> Kind_of e <> Interface ->
          ObjectWrapper_As o (Some (it, iv)) h
          = Ok (None, Some "interfacePtr must be a pointer to an interface type") h)
    /\ (forall it iv e,
          Kind_of it = Ptr -> Elem it = Some e -> Kind_of e = Interface ->
          ObjectWrapper_As o (Some (it, iv)) h
          = (r <- Cast (Some c) (Some e) ;; ret (r, None)) h).
Proof.
  intros n m T0 K c h Hn Hm HC o.
  assert (HL : load_klass o h = Ok (At (HeapBlock m) 0 []) h).
  { unfold load_klass, bind, load. simpl. now rewrite Hn. }
  assert (HK : load_Klass (At (HeapBlock m) 0 []) h = Ok K h).
  { unfold load_Klass. now rewrite Hm. }
  assert (HU : forall it iv,
             ObjectWrapper_As o (Some (it, iv)) h
             = match Kind_of it with
               | Ptr =>
                   match Elem it with
                   | Some e =>
                       match Kind_of e with
                       | Interface =>
                           kl <- load_Klass (At (HeapBlock m) 0 []) ;;
                           r <- Cast (Class kl) (Some e) ;;
                           ret (r, None)
                       | _ => ret (None, Some "interfacePtr must be a pointer to an interface type")
                       end
                   | None => undefined
                   end
               | _ => ret (None, Some "interfacePtr must be a pointer to an interface type")
               end h).
  { intros it iv. unfold ObjectWrapper_As. rewrite (bind_Ok _ _ _ _ _ HL).
    simpl is_Nil. cbv iota. rewrite bind_assoc, (bind_Ok _ _ _ _ _ HK).
    rewrite HC. reflexivity. }
  split; [reflexivity |]. split; [| split].
  - intros it iv HP. rewrite HU. destruct (Kind_of it); try congruence; reflexivity.
  - intros it iv e HP HE HI. rewrite HU, HP, HE.
    destruct (Kind_of e); try congruence; reflexivity.
  - intros it iv e HP HE HI. rewrite HU, HP, HE, HI.
    rewrite (bind_Ok _ _ _ _ _ HK). now rewrite HC.
Qed.

(** The theorem at the wrapper of block 5 of [heap2], with the argument
    of [TestIntegration], a nil pointer to the interface: the [Dog]
    pointer comes back as the [Animal]. *)
Lemma ObjectWrapper_As_Animal :
  heap2 !! 5%positive
  = Some (OValue t_ObjectWrapper (VStruct [VPointer (At (HeapBlock 4) 0 [])]))
  /\ heap2 !! 4%positive = Some (OKlass rexKlass)
  /\ Class rexKlass = Some (TPtr Dog, VPointer (At (HeapBlock 2) 0 []))
  /\ ObjectWrapper_As (At (HeapBlock 5) 0 []) (Some (TPtr Animal, VPointer Nil)) heap2
     = (r <- Cast rexPtr (Some Animal) ;; ret (r, None)) heap2
  /\ (r <- Cast rexPtr (Some Animal) ;; ret (r, None : error)) heap2
     = Ok (rexPtr, None) heap2.
Proof.
  pose proof (ObjectWrapper_As_checks_then_casts 5%positive 4%positive
                t_ObjectWrapper rexKlass _ heap2 eq_refl eq_refl eq_refl) as H.
  cbv zeta in H.
  refine (conj eq_refl (conj eq_refl (conj eq_refl (conj _ eq_refl)))).
  exact (proj2 (proj2 (proj2 H)) (TPtr Animal) (VPointer Nil) Animal
           eq_refl eq_refl eq_refl).
Defined.

End WrapperProps.
(** * The package's tests *)

(** The assertions of oop_test.go and of the lifecycle tests of
    friendly_test.go, evaluated on the model. *)
Module Tests.
Import GoType Mem Run Reflect Oop Friendly Spec Fixtures.
#[local] Open Scope go_scope.

Example TestNew :
  value_of ((k <- New Go1_23 None (Some TestStruct) ts ;;
             kl <- load_Klass k ;; ret (Class kl)) heap0) = Some ts
  /\ value_of ((k <- New Go1_23 None (Some TestStruct) None ;;
                kl <- load_Klass k ;; ret (Class kl)) heap0)
     = Some (Some (TPtr TestStruct, VPointer (At (HeapBlock 6) 0 []))).
Proof. split; reflexivity. Qed.

Example TestCast :
  value_of (Cast ts (Some TestInterface) heap0) = Some ts
  /\ value_of (Cast (Some (TestStruct, VStruct [VInt 84])) (Some TestInterface) heap0)
     = Some (Some (TPtr TestStruct, VPointer (At (HeapBlock 3) 0 [])))
  /\ value_of ((v <- Cast (Some (TestStruct, VStruct [VInt 84]))
                       (Some TestInterface) ;;
                match v with
                | Some (_, VPointer p) => load p
                | _ => undefined
                end) heap0)
     = Some (VStruct [VInt 84])
  /\ value_of (Cast ts (Some NonImplementedInterface) heap0) = Some None.
Proof. repeat split. Qed.

Example TestAs :
  value_of (As ts (Some TestStruct) heap0) = Some ts
  /\ value_of (As ts (Some TestStruct2) heap0) = Some None.
Proof. split; reflexivity. Qed.

Example TestAsPtr :
  value_of (AsPtr Go1_23 ts heap0) = Some (At (HeapBlock 1) 0 []).
Proof. reflexivity. Qed.

Example TestNilInterface :
  value_of (NilInterface (to_any TestInterface iface) heap0)
  = Some (Some (TPtr TestStruct, VPointer Nil))
  /\ value_of (IsNil (to_any TestInterface (VIface None)) heap0) = Some true.
Proof. split; reflexivity. Qed.

Example TestNullOrZeroInterface :
  value_of (NullOrZeroInterface (Some (TBasic BInt, VInt 42)) heap0)
  = Some (Some (TBasic BInt, VInt 0)).
Proof. reflexivity. Qed.

Example TestNilInterfacePanic :
  Nil_Of (Some (TBasic BInt, VInt 42)) heap0
  = Panics (PanicString "not an interface type") heap0.
Proof. reflexivity. Qed.

Example TestIsNil :
  value_of (IsNil (to_any TestInterface (VIface None)) heap0) = Some true
  /\ value_of (IsNil (to_any TestInterface iface) heap0) = Some false
  /\ value_of (IsNil (Some (TPtr TestStruct, VPointer Nil)) heap0) = Some true.
Proof. repeat split. Qed.

Example TestKlassPtr :
  value_of ((k <- New Go1_23 None (Some TestStruct) ts ;; Klass_Ptr Go1_23 k) heap0)
  = Some (At (HeapBlock 1) 0 []).
Proof. reflexivity. Qed.

Example TestFrom :
  value_of (From_Ptr Go1_23 None TestStruct ts heap0) = Some (ts, ts).
Proof. reflexivity. Qed.

Example TestNil :
  Nil_Ptr = Nil
  /\ value_of ((r <- Nil_Of (to_any TestInterface (VIface None)) ;;
                b <- IsNil r ;; ret (r, b)) heap0)
     = Some (Some (TPtr (TBasic BInt), VPointer Nil), true)
  /\ is_panic (Nil_Of (Some (TBasic BInt, VInt 42)) heap0) = true.
Proof. repeat split. Qed.

Example TestInitClass :
  (p <- alloc (OValue TestStruct (VStruct [VInt 0])) ;;
   initClass (Some (TPtr TestStruct, VPointer p)) ;;;
   load p) heap0
  = Ok (VStruct [VInt 0])
       (<[3%positive := OValue TestStruct (VStruct [VInt 0])]> heap0)
  /\ initClass (Some (TBasic BInt, VInt 42)) heap0 = Ok tt heap0.
Proof. split; reflexivity. Qed.

Example TestObjectWrapperDestroy :
  value_of ((o <- CreateObject Go1_23 None rexPtr ;;
             Destroy o ;;;
             k <- load_klass o ;;
             Destroy o ;;;
             k' <- load_klass o ;;
             ret (k, k')) heap0)
  = Some (Nil, Nil).
Proof. reflexivity. Qed.

Example TestGetUnderlyingObject :
  value_of ((o <- CreateObject Go1_23 None rexPtr ;; GetUnderlyingObject o) heap0)
  = Some rexPtr.
Proof. reflexivity. Qed.

End Tests.
